(** * Artist-brand affinity scorer and seniority classifier

    A shallow embedding of the scoring heuristics of
    [artist-brand-score/artist_brand_matching.py] (class [ArtistBrandMatcher]:
    the audience parsers, the component scores, the matching run and its
    tiers) and of [executive_engagement_analysis.py] (the seniority
    classifier, the seniority scores, the meeting phases and the account
    flags computed from them).

    Conventions of the embedding:
    - a Python [str] is a [string]; [a in b] on strings is [contains];
      [str.lower] is the ASCII lower-casing;
    - a Python [dict] is an association list in insertion order;
    - a Python number is an exact rational ([Q]): the arithmetic of the
      scorer is embedded without rounding, equality of scores is [==];
    - [None] / a missing value is the [None] of an [option]. *)

From Stdlib Require Import Bool List String Ascii ZArith QArith Qabs Qminmax Lqa Lia.
From Stdlib Require Import DecimalString.
From Stdlib Require Import Permutation Sorted.
Import ListNotations.

Open Scope string_scope.

(** ** Python primitives *)

Module Py.

(** [needle in haystack] for two strings. *)
Fixpoint contains (needle haystack : string) : bool :=
  if String.prefix needle haystack then true
  else match haystack with
       | EmptyString => false
       | String _ rest => contains needle rest
       end.

(** [any(x in s for x in xs)] *)
Definition any_in (xs : list string) (s : string) : bool :=
  existsb (fun x => contains x s) xs.

Definition lower_ascii (c : ascii) : ascii :=
  let n := nat_of_ascii c in
  if (Nat.leb 65 n && Nat.leb n 90)%bool then ascii_of_nat (n + 32) else c.

(** [s.lower()] *)
Fixpoint lower (s : string) : string :=
  match s with
  | EmptyString => EmptyString
  | String c rest => String (lower_ascii c) (lower rest)
  end.

(** [s.replace(old, new)] for one-character [old] and [new]. *)
Fixpoint replace_char (old new : ascii) (s : string) : string :=
  match s with
  | EmptyString => EmptyString
  | String c rest =>
      String (if Ascii.eqb c old then new else c) (replace_char old new rest)
  end.

(** [str(n)] for a non-negative integer. *)
Definition str_of_nat (n : nat) : string :=
  NilEmpty.string_of_uint (Nat.to_uint n).

(** [range(lo, hi + 1)] *)
Definition range_incl (lo hi : nat) : list nat := seq lo (S hi - lo).

(** Truthiness of a string: [not s] is [negb (truthy s)]. *)
Definition truthy (s : string) : bool :=
  match s with EmptyString => false | _ => true end.

(** A dict with string keys, in insertion order. *)
Definition dict (V : Type) : Type := list (string * V).

(** [d.get(k, default)] *)
Fixpoint get {V : Type} (d : dict V) (k : string) (default : V) : V :=
  match d with
  | [] => default
  | (k', v) :: rest => if String.eqb k' k then v else get rest k default
  end.

(** [d[k]] guarded by [k in d] *)
Fixpoint lookup {V : Type} (d : dict V) (k : string) : option V :=
  match d with
  | [] => None
  | (k', v) :: rest => if String.eqb k' k then Some v else lookup rest k
  end.

(** [not d] for a dict *)
Definition is_empty {V : Type} (d : dict V) : bool :=
  match d with [] => true | _ => false end.

(** [a > b] on numbers. *)
Definition gt (a b : Q) : bool := negb (Qle_bool a b).
(** [a < b] on numbers. *)
Definition lt (a b : Q) : bool := negb (Qle_bool b a).

(** [max(a, b)]: the first argument unless the second is greater. *)
Definition max (a b : Q) : Q := if gt b a then b else a.
(** [min(a, b)]: the first argument unless the second is smaller. *)
Definition min (a b : Q) : Q := if lt b a then b else a.

End Py.

(** ** [executive_engagement_analysis.classify_seniority_level] *)

Module Seniority.

Inductive level : Type :=
| Unknown | CLevel | SeniorVP | VP | SeniorDirector | Director
| SeniorManager | Manager | IndividualContributor.

(** The label the source returns for each level. *)
Definition label (l : level) : string :=
  match l with
  | Unknown => "Unknown"
  | CLevel => "C-Level"
  | SeniorVP => "Senior VP"
  | VP => "VP"
  | SeniorDirector => "Senior Director"
  | Director => "Director"
  | SeniorManager => "Senior Manager"
  | Manager => "Manager"
  | IndividualContributor => "Individual Contributor"
  end.

Definition c_level_words : list string :=
  ["ceo"; "chief executive"; "president"; "cmo"; "chief marketing";
   "cto"; "chief technology"; "cfo"; "chief financial"; "coo";
   "chief operating"].

Definition senior_vp_words : list string :=
  ["senior vice president"; "senior vp"; "svp";
   "executive vice president"; "evp"].

Definition vp_words : list string := ["vice president"; "vp "; " vp"].

Definition senior_director_words : list string :=
  ["senior director"; "sr director"; "sr. director"].

Definition senior_manager_words : list string :=
  ["senior manager"; "sr manager"; "sr. manager"].

(** [title] is [None] for a missing value ([pd.isna]). *)
Definition classify_seniority_level (title : option string) : string :=
  match title with
  | None => label Unknown
  | Some t =>
      if String.eqb t "" then label Unknown
      else
        let title_lower := Py.lower t in
        if Py.any_in c_level_words title_lower then label CLevel
        else if Py.any_in senior_vp_words title_lower then label SeniorVP
        else if Py.any_in vp_words title_lower then label VP
        else if Py.any_in senior_director_words title_lower
             then label SeniorDirector
        else if Py.contains "director" title_lower then label Director
        else if Py.any_in senior_manager_words title_lower
             then label SeniorManager
        else if Py.contains "manager" title_lower then label Manager
        else label IndividualContributor
  end.

End Seniority.

(** ** [artist_brand_matching.ArtistBrandMatcher] *)

Module Matcher.

Local Open Scope Q_scope.

(** *** Static tables *)

(** [create_industry_attribute_map]: consumer attribute keyword to the
    brand-industry keywords it goes with. *)
Definition create_industry_attribute_map : Py.dict (list string) :=
  [ ("hard seltzer", ["beer, wine, liquor"; "alcoholic beverages"; "beverage"]);
    ("coffee houses", ["restaurants"; "coffee"; "qsr"; "starbucks"; "dunkin"]);
    ("dog owners", ["pet supplies"; "pet food"; "pet care"]);
    ("movie goers", ["entertainment"; "streaming"; "media"; "theaters"]);
    ("travelers", ["airlines"; "hotels"; "travel"; "hospitality"]);
    ("vapers", ["tobacco"; "vaping"; "nicotine"]);
    ("tea drinkers", ["beverages"; "tea"; "non-alcoholic"]);
    ("moms", ["packaged foods"; "household"; "retail"; "grocery"]);
    ("dads", ["automotive"; "tools"; "sports"; "beer"]);
    ("married", ["insurance"; "financial"; "home improvement"]);
    ("quality conscious", ["premium"; "luxury"; "high-end"]);
    ("budget conscious", ["discount"; "value"; "walmart"; "dollar"]);
    ("horror tv viewers", ["streaming"; "entertainment"]);
    ("reality tv viewers", ["entertainment"; "media"]);
    ("podcast listeners", ["media"; "audio"; "streaming"]);
    ("streamers", ["streaming"; "entertainment"; "gaming"]);
    ("cosmetics", ["cosmetics"; "beauty"; "personal care"]);
    ("snack food", ["packaged foods"; "snacks"; "chips"]);
    ("fast casual", ["restaurants"; "qsr"; "fast food"]);
    ("hybrid drivers", ["automotive"; "eco-friendly"; "sustainable"]);
    ("suv drivers", ["automotive"; "trucks"; "vehicles"]) ]%string.

(** [self.industry_attribute_map], set once in [__init__]. *)
Definition industry_attribute_map : Py.dict (list string) :=
  create_industry_attribute_map.

(** [age_map] of [calculate_age_similarity], in the order of the source. *)
Definition age_map : Py.dict (Z * Z) :=
  [ ("16-20", (16, 20)); ("21-29", (21, 29)); ("28-43", (28, 43));
    ("30-39", (30, 39)); ("40-49", (40, 49)); ("44-59", (44, 59));
    ("50-59", (50, 59)); ("60+", (60, 75)) ]%Z%string.

(** [income_brackets] of [calculate_income_similarity]. *)
Definition income_brackets : Py.dict Q :=
  [ ("Less than $30K", 1); ("$25,000 - $50,000", 2); ("$30K-$49K", 2);
    ("$50K-$74K", 3); ("$50,000 - $100,000", 3.5); ("$75K-$125k", 4);
    ("$100,000 - $150,000", 5); ("$125K or More", 6); ("$150,000+", 6) ].

(** *** Records *)

(** The dict built by [parse_artist_audience]: one table per section. *)
Record artist_audience : Type := mkAudience {
  gender : Py.dict Q;
  ethnicity : Py.dict Q;
  income : Py.dict Q;
  age : Py.dict Q;
  attributes : Py.dict Q
}.

Record artist : Type := mkArtist {
  name : string;
  audience_parsed : artist_audience
}.

(** The value of a brand's [AudienceParsed] column as
    [calculate_match_score] tells it apart: a dict of text fields, a list
    of such dicts, or anything else. *)
Inductive brand_audience : Type :=
| AudDict (d : Py.dict string)
| AudList (l : list (Py.dict string))
| AudOther.

Record brand : Type := mkBrand {
  Industries : string;
  AudienceParsed : brand_audience
}.

(** *** Age *)

(** First entry of [age_map] whose label occurs in the brand's text. *)
Definition brand_age_range (brand_age : string) : option (Z * Z) :=
  match find (fun e => Py.contains (fst e) brand_age) age_map with
  | Some (_, age_tuple) => Some age_tuple
  | None => None
  end.

(** [any(str(x) in group for x in range(lo, hi + 1))] *)
Definition mentions_age (age_tuple : Z * Z) (artist_age_group : string) : bool :=
  existsb (fun x => Py.contains (Py.str_of_nat x) artist_age_group)
          (Py.range_incl (Z.to_nat (fst age_tuple)) (Z.to_nat (snd age_tuple))).

(** First entry of [age_map] one of whose ages occurs in the group label:
    the entry at which the inner loop stops. *)
Definition artist_age_range (artist_age_group : string) : option (Z * Z) :=
  match find (fun e => mentions_age (snd e) artist_age_group) age_map with
  | Some (_, age_tuple) => Some age_tuple
  | None => None
  end.

(** The range the loop gives an artist's age group: that of
    [artist_age_range] for a label with "Years Old" in it, none for
    another label. *)
Definition bucket_range (artist_age_group : string) : option (Z * Z) :=
  if Py.contains "Years Old" artist_age_group
  then artist_age_range artist_age_group
  else None.

Definition overlap_of (age_tuple brand_range : Z * Z) : Z :=
  Z.max 0 (Z.min (snd age_tuple) (snd brand_range)
           - Z.max (fst age_tuple) (fst brand_range)).

Definition max_overlap_of (age_tuple brand_range : Z * Z) : Z :=
  Z.min (snd age_tuple - fst age_tuple) (snd brand_range - fst brand_range).

(** One pass of the loop over [artist_age.items()]; the accumulator is
    [(total_score, total_weight)]. *)
Definition age_step (brand_range : Z * Z) (acc : Q * Q) (entry : string * Q)
  : Q * Q :=
  let '(artist_age_group, index) := entry in
  if Py.contains "Years Old" artist_age_group then
    match artist_age_range artist_age_group with
    | Some age_tuple =>
        let overlap := overlap_of age_tuple brand_range in
        let max_overlap := max_overlap_of age_tuple brand_range in
        if (0 <? max_overlap)%Z then
          let overlap_score := inject_Z overlap / inject_Z max_overlap in
          let weight := 1 + Py.max 0 index in
          (fst acc + overlap_score * weight, snd acc + weight)
        else acc
    | None => acc
    end
  else acc.

Definition calculate_age_similarity (artist_age : Py.dict Q) (brand_age : string)
  : Q :=
  match brand_age_range brand_age with
  | None => 0.5
  | Some brand_range =>
      let '(total_score, total_weight) :=
        fold_left (age_step brand_range) artist_age (0, 0) in
      if Py.gt total_weight 0 then total_score / total_weight else 0.5
  end.

(** *** Gender *)

Definition calculate_gender_similarity (artist_gender : Py.dict Q)
  (brand_gender : string) : Q :=
  if (String.eqb brand_gender "All Genders" || Py.is_empty artist_gender)%bool
  then 0.75
  else
    let female_pct := Py.get artist_gender "Female" 0 in
    let male_pct := Py.get artist_gender "Male" 0 in
    if (Py.gt female_pct 0.6 && Py.contains "Female" brand_gender)%bool then 0.9
    else if (Py.gt male_pct 0.6 && Py.contains "Male" brand_gender)%bool then 0.9
    else if Py.lt (Qabs (female_pct - 0.5)) 0.1 then 0.8
    else 0.6.

(** *** Income *)

(** First bracket whose label occurs in the brand's text: where the
    loop over [income_brackets.items()] stops. *)
Definition brand_income_bracket (brand_income : string) : option (string * Q) :=
  find (fun e => Py.contains (fst e) brand_income) income_brackets.

(** Level of that bracket, 3.5 when there is none. *)
Definition brand_income_level (brand_income : string) : Q :=
  match brand_income_bracket brand_income with
  | Some (_, level) => level
  | None => 3.5
  end.

(** One pass of the loop over [artist_income.items()]; the accumulator is
    [(artist_level, total_weight)]. *)
Definition income_step (acc : Q * Q) (entry : string * Q) : Q * Q :=
  let '(bracket, index) := entry in
  match Py.lookup income_brackets bracket with
  | Some level =>
      let weight := 1 + Py.max 0 index in
      (fst acc + level * weight, snd acc + weight)
  | None => acc
  end.

(** Weighted average level of the artist's brackets, 3.5 when no bracket
    is known. *)
Definition artist_income_level (artist_income : Py.dict Q) : Q :=
  let '(artist_level, total_weight) :=
    fold_left income_step artist_income (0, 0) in
  if Py.gt total_weight 0 then artist_level / total_weight else 3.5.

Definition income_distance (artist_income : Py.dict Q) (brand_income : string)
  : Q :=
  Qabs (artist_income_level artist_income - brand_income_level brand_income).

Definition calculate_income_similarity (artist_income : Py.dict Q)
  (brand_income : string) : Q :=
  let distance := income_distance artist_income brand_income in
  let similarity := 1 - distance / 5 in
  Py.max 0 (Py.min 1 similarity).

(** *** Ethnicity *)


Definition calculate_ethnicity_similarity (artist_ethnicity : Py.dict Q)
  (brand_ethnicity : string) : Q :=
  if (Py.is_empty artist_ethnicity || negb (Py.truthy brand_ethnicity))%bool
  then 0.7
  else
    let score := 0.5 in
    let hit (word : string) : bool :=
      (Py.contains word brand_ethnicity
       && Py.gt (Py.get artist_ethnicity word 0) 0)%bool in
    let bump (word : string) : Q :=
      score + 0.3 * (1 + Py.get artist_ethnicity word 0) in
    let score :=
      if hit "White" then bump "White"
      else if hit "Hispanic" then bump "Hispanic"
      else if hit "African American" then bump "African American"
      else if hit "Asian" then bump "Asian"
      else score in
    Py.min 1 score.

(** *** Consumer attributes *)

(** Body of the loop over [industry_attribute_map.items()] for one artist
    attribute; the accumulator is [(matches, total_score)].  The [break]
    of the source leaves the loop over the industries of one entry only,
    so an entry adds at most one match. *)
Definition affinity_entry (brand_industries_lower attr : string) (index : Q)
  (acc : list string * Q) (entry : string * list string) : list string * Q :=
  let attr_lower := Py.lower attr in
  let '(attr_key, industry_list) := entry in
  if Py.contains attr_key attr_lower then
    if Py.any_in industry_list brand_industries_lower then
      let match_score := if Py.gt index 0 then (1 + index) / 3 else 0.3 in
      ((fst acc ++ [attr])%list, snd acc + match_score)
    else acc
  else acc.

(** Body of the loop over [artist_attrs.items()]. *)
Definition affinity_attr (brand_industries_lower : string)
  (acc : list string * Q) (item : string * Q) : list string * Q :=
  fold_left (affinity_entry brand_industries_lower (fst item) (snd item))
            industry_attribute_map acc.

Definition calculate_attribute_affinity (artist_attrs : Py.dict Q)
  (brand_industries : string) : Q * nat :=
  if (Py.is_empty artist_attrs || negb (Py.truthy brand_industries))%bool
  then (0, 0%nat)
  else
    let brand_industries_lower := Py.lower brand_industries in
    let '(matches, total_score) :=
      fold_left (affinity_attr brand_industries_lower) artist_attrs ([], 0) in
    let avg_score :=
      match matches with
      | [] => 0.2
      | _ => total_score / inject_Z (Z.of_nat (List.length artist_attrs))
      end in
    (Py.min 1 avg_score, List.length matches).

(** *** Composite score *)

(** [calculate_demographic_similarity]: the four demographic scores. *)
Record demo_scores : Type := mkDemo {
  demo_age : Q;
  demo_gender : Q;
  demo_income : Q;
  demo_ethnicity : Q
}.

Definition calculate_demographic_similarity (artist_demo : artist_audience)
  (brand_demo : Py.dict string) : demo_scores :=
  {| demo_age :=
       calculate_age_similarity (age artist_demo) (Py.get brand_demo "Age" "");
     demo_gender :=
       calculate_gender_similarity (gender artist_demo)
         (Py.get brand_demo "Gender" "All Genders");
     demo_income :=
       calculate_income_similarity (income artist_demo)
         (Py.get brand_demo "Household Income" "");
     demo_ethnicity :=
       calculate_ethnicity_similarity (ethnicity artist_demo)
         (Py.get brand_demo "Ethnicity" "") |}.

(** The [isinstance] dispatch at the head of [calculate_match_score]. *)
Definition brand_demo_of (a : brand_audience) : Py.dict string :=
  match a with
  | AudList (first :: _) => first
  | AudList [] => []
  | AudDict d => d
  | AudOther => []
  end.

(** 0.8 when the brand names a region, 0.7 otherwise. *)
Definition geo_score_of (brand_demo : Py.dict string) : Q :=
  if Py.truthy (Py.get brand_demo "Region" "") then 0.8 else 0.7.

(** [weights] of [calculate_match_score]. *)
Record weights : Type := mkWeights {
  w_age : Q; w_gender : Q; w_income : Q;
  w_ethnicity : Q; w_attributes : Q; w_geographic : Q
}.

Definition match_weights : weights :=
  {| w_age := 0.25; w_gender := 0.15; w_income := 0.20;
     w_ethnicity := 0.10; w_attributes := 0.20; w_geographic := 0.10 |}.

(** The dict returned by [calculate_match_score].  Its three entries
    [std_dev], [ci_lower] and [ci_upper] come from [np.std], a square
    root, and have no rational value: they are left out. *)
Record match_result : Type := mkResult {
  composite_score : Q;
  demographic_score : Q;
  attribute_score : Q;
  geographic_score : Q;
  age_similarity : Q;
  gender_similarity : Q;
  income_similarity : Q;
  ethnicity_similarity : Q;
  attribute_matches : nat
}.

Definition calculate_match_score (a : artist) (b : brand) : match_result :=
  let artist_demo := audience_parsed a in
  let brand_demo := brand_demo_of (AudienceParsed b) in
  let demo := calculate_demographic_similarity artist_demo brand_demo in
  let '(attr_score, attr_matches) :=
    calculate_attribute_affinity (attributes artist_demo) (Industries b) in
  let geo_score := geo_score_of brand_demo in
  let composite :=
    demo_age demo * w_age match_weights
    + demo_gender demo * w_gender match_weights
    + demo_income demo * w_income match_weights
    + demo_ethnicity demo * w_ethnicity match_weights
    + attr_score * w_attributes match_weights
    + geo_score * w_geographic match_weights in
  let final_score := composite * 100 in
  {| composite_score := final_score;
     demographic_score :=
       (demo_age demo + demo_gender demo + demo_income demo
        + demo_ethnicity demo) / 4 * 100;
     attribute_score := attr_score * 100;
     geographic_score := geo_score * 100;
     age_similarity := demo_age demo;
     gender_similarity := demo_gender demo;
     income_similarity := demo_income demo;
     ethnicity_similarity := demo_ethnicity demo;
     attribute_matches := attr_matches |}.

(** *** Tiers *)

Inductive tier : Type := Exceptional | Strong | Good | Fair.

(** The label written to the [Match_Tier] column. *)
Definition tier_label (t : tier) : string :=
  match t with
  | Exceptional => "Exceptional"
  | Strong => "Strong"
  | Good => "Good"
  | Fair => "Fair"
  end.

(** The closure [assign_tier] of [add_match_tiers]. *)
Definition assign_tier (mean_score std_score score : Q) : string :=
  if Py.gt score (mean_score + 2 * std_score) then tier_label Exceptional
  else if Py.gt score (mean_score + std_score) then tier_label Strong
  else if Py.gt score mean_score then tier_label Good
  else tier_label Fair.

(** [Series.mean()] of the score column. *)
Definition mean (scores : list Q) : Q :=
  fold_right Qplus 0 scores / inject_Z (Z.of_nat (List.length scores)).

(** [add_match_tiers] on the [Composite_Match_Score] column: each score
    with its [Match_Tier].  The standard deviation of the column
    ([Series.std()], a square root) is an input. *)
Definition add_match_tiers (std_score : Q) (scores : list Q)
  : list (Q * string) :=
  let mean_score := mean scores in
  map (fun score => (score, assign_tier mean_score std_score score)) scores.

(** *** Audience blobs *)

Local Unset Elimination Schemes.

(** A decoded JSON value. *)
Inductive json : Type :=
| JNull
| JBool (b : bool)
| JNum (q : Q)
| JStr (s : string)
| JArr (items : list json)
| JObj (fields : list (string * json)).

Local Set Elimination Schemes.

(** What a call does: it returns a value or raises. *)
Inductive outcome (A : Type) : Type :=
| Returns (a : A)
| Raises.
Arguments Returns {A} a.
Arguments Raises {A}.

(** [try: body except: handler] *)
Definition try_except {A : Type} (body : outcome A) (handler : outcome A)
  : outcome A :=
  match body with
  | Returns a => Returns a
  | Raises => handler
  end.

Definition single_quote : ascii := "'"%char.
Definition double_quote : ascii := "034"%char.

(** The text the source compares the blob with: an object whose only
    key and value are empty, written with single quotes. *)
Definition empty_placeholder : string := "{'': ''}".

(** [audience_json.replace(single quote, double quote)] *)
Definition quote_normalize (audience_json : string) : string :=
  Py.replace_char single_quote double_quote audience_json.

Section ParseBrandAudience.

(** [json.loads] of the standard library: the decoded value, or
    [Raises] where the text is no JSON document. *)
Variable json_loads : string -> outcome json.

(** The body of the [try] block; [None] is a missing value
    ([pd.isna]). *)
Definition parse_brand_audience_body (audience_json : option string)
  : outcome json :=
  match audience_json with
  | None => Returns (JObj [])
  | Some text =>
      if String.eqb text empty_placeholder then Returns (JObj [])
      else json_loads (quote_normalize text)
  end.

Definition parse_brand_audience (audience_json : option string)
  : outcome json :=
  try_except (parse_brand_audience_body audience_json)
             (Returns (JObj [])).

End ParseBrandAudience.

(** A decoder for the examples: it knows the JSON texts of the object
    with one empty key and empty value and of the object with the one
    field [Age], and raises on any other text. *)
Definition sample_loads (text : string) : outcome json :=
  let q := String double_quote EmptyString in
  if String.eqb text ("{" ++ q ++ q ++ ": " ++ q ++ q ++ "}")%string
  then Returns (JObj [(""%string, JStr "")])
  else if String.eqb text
            ("{" ++ q ++ "Age" ++ q ++ ": " ++ q ++ "21-29" ++ q ++ "}")%string
  then Returns (JObj [("Age"%string, JStr "21-29")])
  else Raises.

End Matcher.

(** ** [executive_engagement_analysis]: the meeting frame *)

Module Engagement.

(** [seniority_scores] of [analyze_executive_engagement_timing]. *)
Definition seniority_scores : Py.dict Z :=
  [ ("C-Level", 7); ("Senior VP", 6); ("VP", 5); ("Senior Director", 4);
    ("Director", 3); ("Senior Manager", 2); ("Manager", 1);
    ("Individual Contributor", 0); ("Unknown", 0) ]%Z%string.

(** One row of the frame the query returns, with the columns the analyses
    read. *)
Record meeting : Type := mkMeeting {
  AccountId : string;
  is_customer : Z;
  ContactId : string;
  Title : option string;
  meeting_sequence : Z
}.

(** The column [seniority_level]: [df['Title'].apply(classify_seniority_level)]. *)
Definition seniority_level (r : meeting) : string :=
  Seniority.classify_seniority_level (Title r).

(** The column [seniority_score]: [df['seniority_level'].map(seniority_scores)];
    [None] is the NaN that [map] gives a value outside the dict. *)
Definition seniority_score (r : meeting) : option Z :=
  Py.lookup seniority_scores (seniority_level r).

(** The closure [categorize_meeting_phase] of [analyze_executive_progression],
    on the account's meeting count and the row's sequence number. *)
Definition categorize_meeting_phase (total_meetings sequence : Z) : string :=
  if (total_meetings <=? 3)%Z then
    if (sequence <=? 2)%Z then "Early" else "Late"
  else if (total_meetings <=? 6)%Z then
    if (sequence <=? 2)%Z then "Early"
    else if (sequence <=? 4)%Z then "Middle"
    else "Late"
  else
    let third := (total_meetings / 3)%Z in
    if (sequence <=? third)%Z then "Early"
    else if (sequence <=? 2 * third)%Z then "Middle"
    else "Late".

(** [df[df['meeting_sequence'] <= 3]] *)
Definition early_meetings (df : list meeting) : list meeting :=
  filter (fun r => (meeting_sequence r <=? 3)%Z) df.

(** The scores of one account's rows, NaN left out as [max] leaves it out. *)
Definition account_scores (df : list meeting) (account : string) : list Z :=
  flat_map (fun r =>
              if String.eqb (AccountId r) account then
                match seniority_score r with
                | Some score => [score]
                | None => []
                end
              else []) df.

(** [groupby('AccountId')['seniority_score'].max()] at one account: [None]
    when the account has no row, or no score, in the frame. *)
Definition group_max (df : list meeting) (account : string) : option Z :=
  match account_scores df account with
  | [] => None
  | score :: rest => Some (fold_left Z.max rest score)
  end.

(** The column [early_executive_access] of [export_executive_analysis]:
    the best score of the account's first three meetings, [fillna(0)]. *)
Definition early_executive_access (df : list meeting) (account : string) : Z :=
  match group_max (early_meetings df) account with
  | Some score => score
  | None => 0%Z
  end.

(** The column [has_early_executive]: [early_executive_access >= 5]. *)
Definition has_early_executive (df : list meeting) (account : string) : bool :=
  (5 <=? early_executive_access df account)%Z.

(** [Series.unique()]: the values in the order of their first
    occurrence. *)
Fixpoint unique (seen values : list string) : list string :=
  match values with
  | [] => []
  | v :: rest =>
      if existsb (String.eqb v) seen then unique seen rest
      else v :: unique (v :: seen) rest
  end.

(** [df[df['is_customer'] == flag]] *)
Definition with_customer_flag (flag : Z) (df : list meeting) : list meeting :=
  filter (fun r => (is_customer r =? flag)%Z) df.

(** The C-level penetration of [create_executive_insights] for one of the
    two groups of rows: the share, in percent, of the group's accounts that
    have a C-level row. *)
Definition c_level_penetration (group : list meeting) : Q :=
  let accounts_with_c_level :=
    List.length
      (unique [] (map AccountId
                      (filter (fun r => String.eqb (seniority_level r) "C-Level")
                              group))) in
  let total_accounts := List.length (unique [] (map AccountId group)) in
  if (0 <? total_accounts)%nat
  then (inject_Z (Z.of_nat accounts_with_c_level)
        / inject_Z (Z.of_nat total_accounts) * 100)%Q
  else 0%Q.

End Engagement.

(** ** [ArtistBrandMatcher.run_matching] and the top matches *)

Module Run.

Import Matcher.

(** One record of [artist_results]: the artist, the brand (for the
    columns [Brand_Name], [Brand_Industry] and [Brand_MediaSpend]) and the
    scores of the pair. *)
Record match_row : Type := mkMatchRow {
  row_artist : artist;
  row_brand : brand;
  row_scores : match_result
}.

Definition Artist_Name (r : match_row) : string := name (row_artist r).

Definition Composite_Match_Score (r : match_row) : Q :=
  composite_score (row_scores r).

(** A row with its [Rank_Within_Artist]. *)
Record ranked_row : Type := mkRanked {
  ranked_of : match_row;
  Rank_Within_Artist : nat
}.

(** A row of [match_results] once the tiers are added.  The column
    [Match_P_Value] (a normal tail probability) is left out. *)
Record result_row : Type := mkResultRow {
  result_of : ranked_row;
  Match_Tier : string
}.

(** The inner loop over the brands: one record per brand, in the order
    of the brands. *)
Definition artist_results (a : artist) (brands : list brand) : list match_row :=
  map (fun b => mkMatchRow a b (calculate_match_score a b)) brands.

(** [df['Rank_Within_Artist'] = range(1, len(df) + 1)] *)
Definition with_ranks (rows : list match_row) : list ranked_row :=
  map (fun p => mkRanked (fst p) (snd p))
      (combine rows (seq 1 (List.length rows))).

Section RunMatching.

(** [DataFrame.sort_values('Composite_Match_Score', ascending=False)] on
    a frame with rows. *)
Variable sort_values : list match_row -> list match_row.

(** [Series.std()] of a column. *)
Variable series_std : list Q -> Q.

(** The sorted and ranked frame of one artist.  A frame built from no
    record has no column [Composite_Match_Score]: sorting it raises. *)
Definition artist_results_df (a : artist) (brands : list brand)
  : outcome (list ranked_row) :=
  match brands with
  | [] => Raises
  | _ => Returns (with_ranks (sort_values (artist_results a brands)))
  end.

(** The outer loop over the artists: the list [results] of frames. *)
Fixpoint results_of (artists : list artist) (brands : list brand)
  : outcome (list (list ranked_row)) :=
  match artists with
  | [] => Returns []
  | a :: rest =>
      match artist_results_df a brands with
      | Raises => Raises
      | Returns df =>
          match results_of rest brands with
          | Raises => Raises
          | Returns dfs => Returns (df :: dfs)
          end
      end
  end.

(** [pd.concat(results, ignore_index=True)]: it raises on an empty
    list. *)
Definition concat_frames (frames : list (list ranked_row))
  : outcome (list ranked_row) :=
  match frames with
  | [] => Raises
  | _ => Returns (List.concat frames)
  end.

(** [add_match_tiers] on the rows: the tier of each row from the mean and
    the deviation of the whole score column. *)
Definition with_tiers (match_results : list ranked_row) : list result_row :=
  let scores :=
    map (fun r => Composite_Match_Score (ranked_of r)) match_results in
  let mean_score := mean scores in
  let std_score := series_std scores in
  map (fun r =>
         mkResultRow r (assign_tier mean_score std_score
                          (Composite_Match_Score (ranked_of r))))
      match_results.

Definition run_matching (artists : list artist) (brands : list brand)
  : outcome (list result_row) :=
  match results_of artists brands with
  | Raises => Raises
  | Returns frames =>
      match concat_frames frames with
      | Raises => Raises
      | Returns match_results => Returns (with_tiers match_results)
      end
  end.

End RunMatching.

(** [match_results[match_results['Artist_Name'] == artist].iloc[0]] of
    [generate_statistics]: the first row of the artist's name, [None] where
    [iloc] finds no row. *)
Definition top_match (match_results : list result_row) (artist_name : string)
  : option result_row :=
  find (fun r => String.eqb (Artist_Name (ranked_of (result_of r))) artist_name)
       match_results.

(** Falling order of the composite score: the order of
    [sort_values(..., ascending=False)]. *)
Definition score_falls (r1 r2 : match_row) : Prop :=
  (Composite_Match_Score r2 <= Composite_Match_Score r1)%Q.

(** A sort for the examples: insertion by falling score, a row going
    after the rows of its score. *)
Fixpoint insert_by_score (r : match_row) (sorted : list match_row)
  : list match_row :=
  match sorted with
  | [] => [r]
  | x :: rest =>
      if Py.gt (Composite_Match_Score r) (Composite_Match_Score x)
      then r :: x :: rest
      else x :: insert_by_score r rest
  end.

Definition sample_sort (rows : list match_row) : list match_row :=
  fold_right insert_by_score [] rows.

End Run.

(** ** [ArtistBrandMatcher.parse_artist_audience] *)

Module Parse.

Import Matcher.

(** [c.isspace()] for an ASCII character: tab to carriage return, the four
    separators 28 to 31, and the space. *)
Definition is_space (c : ascii) : bool :=
  let n := nat_of_ascii c in
  ((Nat.leb 9 n && Nat.leb n 13) || (Nat.leb 28 n && Nat.leb n 32))%bool.

(** [s.lstrip()] *)
Fixpoint lstrip (s : string) : string :=
  match s with
  | EmptyString => EmptyString
  | String c rest => if is_space c then lstrip rest else s
  end.

(** [s.rstrip()] *)
Fixpoint rstrip (s : string) : string :=
  match s with
  | EmptyString => EmptyString
  | String c rest =>
      match rstrip rest with
      | EmptyString => if is_space c then EmptyString else String c EmptyString
      | kept => String c kept
      end
  end.

(** [s.strip()] *)
Definition strip (s : string) : string := rstrip (lstrip s).

(** [s.split(sep)] for a one-character separator. *)
Fixpoint split_char (sep : ascii) (s : string) : list string :=
  match s with
  | EmptyString => [EmptyString]
  | String c rest =>
      if Ascii.eqb c sep then EmptyString :: split_char sep rest
      else match split_char sep rest with
           | [] => [String c EmptyString]
           | first :: others => String c first :: others
           end
  end.

(** [s.replace(c, '')]: the text without the character. *)
Fixpoint remove_char (c : ascii) (s : string) : string :=
  match s with
  | EmptyString => EmptyString
  | String d rest =>
      if Ascii.eqb d c then remove_char c rest
      else String d (remove_char c rest)
  end.

(** [d[k] = v]: the value of a key that is there is replaced where it
    stands, a new key goes to the end. *)
Fixpoint set {V : Type} (d : Py.dict V) (k : string) (v : V) : Py.dict V :=
  match d with
  | [] => [(k, v)]
  | (k', v') :: rest =>
      if String.eqb k' k then (k', v) :: rest else (k', v') :: set rest k v
  end.

(** The five sections of the audience text. *)
Inductive section : Type :=
| SecGender | SecEthnicity | SecIncome | SecAge | SecAttributes.

(** The section a stripped line opens, if it is a heading. *)
Definition section_of (line : string) : option section :=
  if String.eqb line "Gender" then Some SecGender
  else if String.eqb line "Ethnicity" then Some SecEthnicity
  else if String.eqb line "Household Income" then Some SecIncome
  else if String.eqb line "Age" then Some SecAge
  else if String.eqb line "Consumer Attributes" then Some SecAttributes
  else None.

(** Equality of two sections. *)
Definition section_eqb (s1 s2 : section) : bool :=
  match s1, s2 with
  | SecGender, SecGender
  | SecEthnicity, SecEthnicity
  | SecIncome, SecIncome
  | SecAge, SecAge
  | SecAttributes, SecAttributes => true
  | _, _ => false
  end.

(** [parsed[section]] *)
Definition table (sec : section) (parsed : artist_audience) : Py.dict Q :=
  match sec with
  | SecGender => gender parsed
  | SecEthnicity => ethnicity parsed
  | SecIncome => income parsed
  | SecAge => age parsed
  | SecAttributes => attributes parsed
  end.

(** [parsed[section][key] = value] *)
Definition put (sec : section) (key : string) (value : Q)
  (parsed : artist_audience) : artist_audience :=
  match sec with
  | SecGender =>
      mkAudience (set (gender parsed) key value) (ethnicity parsed)
                 (income parsed) (age parsed) (attributes parsed)
  | SecEthnicity =>
      mkAudience (gender parsed) (set (ethnicity parsed) key value)
                 (income parsed) (age parsed) (attributes parsed)
  | SecIncome =>
      mkAudience (gender parsed) (ethnicity parsed)
                 (set (income parsed) key value) (age parsed)
                 (attributes parsed)
  | SecAge =>
      mkAudience (gender parsed) (ethnicity parsed) (income parsed)
                 (set (age parsed) key value) (attributes parsed)
  | SecAttributes =>
      mkAudience (gender parsed) (ethnicity parsed) (income parsed)
                 (age parsed) (set (attributes parsed) key value)
  end.

(** [next.startswith('+') or next.startswith('-')] *)
Definition signed (next : string) : bool :=
  (String.prefix "+" next || String.prefix "-" next)%bool.

Section ParseArtistAudience.

(** [float] of the language: the number a text denotes, or [Raises]
    where it denotes none. *)
Variable py_float : string -> outcome Q.

(** What a line that is no heading stores under the current section,
    from the line after it ([following] is the rest of the lines): nothing,
    a key with its value, or the failure of [float]. *)
Definition line_entry (sec : section) (line : string) (following : list string)
  : outcome (option (string * Q)) :=
  match following with
  | [] => Returns None
  | next :: _ =>
      match sec with
      | SecAttributes =>
          if signed next then
            match py_float (remove_char " " (strip next)) with
            | Returns index_value => Returns (Some (Py.lower line, index_value))
            | Raises => Raises
            end
          else Returns None
      | _ =>
          if Py.contains "%" next then
            match py_float (remove_char "%" (strip next)) with
            | Returns value => Returns (Some (line, (value / 100)%Q))
            | Raises => Raises
            end
          else if signed next then
            match py_float (remove_char " " (strip next)) with
            | Returns index_value => Returns (Some (line, index_value))
            | Raises => Raises
            end
          else Returns None
      end
  end.

(** The loop over the lines, from a current section and the tables built
    so far. *)
Fixpoint parse_lines (lines : list string) (current_section : option section)
  (parsed : artist_audience) : outcome artist_audience :=
  match lines with
  | [] => Returns parsed
  | raw :: following =>
      let line := strip raw in
      match section_of line with
      | Some sec => parse_lines following (Some sec) parsed
      | None =>
          match current_section with
          | Some sec =>
              if Py.truthy line then
                match line_entry sec line following with
                | Raises => Raises
                | Returns None => parse_lines following current_section parsed
                | Returns (Some (key, value)) =>
                    parse_lines following current_section
                                (put sec key value parsed)
                end
              else parse_lines following current_section parsed
          | None => parse_lines following current_section parsed
          end
      end
  end.

Definition parse_artist_audience (audience_text : string)
  : outcome artist_audience :=
  parse_lines (split_char "010" audience_text) None
              (mkAudience [] [] [] [] []).

End ParseArtistAudience.

(** A [float] for the examples: it reads the texts "65", "35" and "+2.5"
    and raises on any other. *)
Definition sample_float (text : string) : outcome Q :=
  if String.eqb text "65" then Returns 65%Q
  else if String.eqb text "35" then Returns 35%Q
  else if String.eqb text "+2.5" then Returns 2.5%Q
  else Raises.

(** An audience text with a gender and an attribute section. *)
Definition sample_text : string :=
  String.concat (String "010" EmptyString)
    ["Gender"; "Female"; " 65% "; "Male"; "35%";
     "Consumer Attributes"; "Hard Seltzer"; "+ 2.5"].

End Parse.

(** ** Loop invariants *)

(** Income loop: the running level stays between 1 and 6 times the running
    weight, and the weight is not negative. *)
Definition income_inv (acc : Q * Q) : Prop :=
  (0 <= snd acc /\ 1 * snd acc <= fst acc <= 6 * snd acc)%Q.

(** * Properties *)

(** ** Sanity checks of the primitives *)

Example contains_mid : Py.contains "ice" "officer" = true.
Proof. reflexivity. Qed.

Example contains_not : Py.contains "ceo" "chief marketing officer" = false.
Proof. reflexivity. Qed.

Example contains_empty : Py.contains "" "" = true.
Proof. reflexivity. Qed.

Example lower_mixed : Py.lower "Beer, Wine, Liquor" = "beer, wine, liquor".
Proof. reflexivity. Qed.

Example str_of_nat_16 : Py.str_of_nat 16 = "16".
Proof. reflexivity. Qed.

Example range_incl_16_20 : Py.range_incl 16 20 = [16; 17; 18; 19; 20]%nat.
Proof. reflexivity. Qed.

Example artist_range_21_29 :
  Matcher.artist_age_range "21-29 Years Old" = Some (21, 29)%Z.
Proof. reflexivity. Qed.

Example artist_range_30_39 :
  Matcher.artist_age_range "30-39 Years Old" = Some (28, 43)%Z.
Proof. reflexivity. Qed.

Example brand_range_30_39 :
  Matcher.brand_age_range "Ages 30-39" = Some (30, 39)%Z.
Proof. reflexivity. Qed.

Example quote_normalize_placeholder :
  Matcher.quote_normalize Matcher.empty_placeholder
  = String "{" (String "034" (String "034" (String ":" (String " "
      (String "034" (String "034" (String "}" EmptyString))))))).
Proof. reflexivity. Qed.

(** ** Comparisons, [max] and [min] *)

Lemma Py_gt_true (a b : Q) : Py.gt a b = true <-> (b < a)%Q.
Proof.
  unfold Py.gt. rewrite negb_true_iff, <- not_true_iff_false, Qle_bool_iff.
  split; intro H; [apply Qnot_le_lt | apply Qlt_not_le]; exact H.
Qed.

Lemma Py_gt_false (a b : Q) : Py.gt a b = false <-> (a <= b)%Q.
Proof. unfold Py.gt. rewrite negb_false_iff. apply Qle_bool_iff. Qed.

Lemma Py_lt_true (a b : Q) : Py.lt a b = true <-> (a < b)%Q.
Proof. apply Py_gt_true. Qed.

Lemma Py_lt_false (a b : Q) : Py.lt a b = false <-> (b <= a)%Q.
Proof. apply Py_gt_false. Qed.

(** Splits on the outcome of one comparison and records what it says. *)
Ltac py_compare :=
  match goal with
  | |- context [Py.gt ?a ?b] =>
      let E := fresh "Hcmp" in
      destruct (Py.gt a b) eqn:E;
      [apply Py_gt_true in E | apply Py_gt_false in E]
  | |- context [Py.lt ?a ?b] =>
      let E := fresh "Hcmp" in
      destruct (Py.lt a b) eqn:E;
      [apply Py_lt_true in E | apply Py_lt_false in E]
  end.

Lemma Py_max_spec (a b : Q) :
  (a < b /\ Py.max a b = b)%Q \/ (b <= a /\ Py.max a b = a)%Q.
Proof. unfold Py.max. py_compare; [left | right]; split; auto. Qed.

Lemma Py_min_spec (a b : Q) :
  (b < a /\ Py.min a b = b)%Q \/ (a <= b /\ Py.min a b = a)%Q.
Proof. unfold Py.min. py_compare; [left | right]; split; auto. Qed.


(** Replaces one [max] or [min] of the goal or of a hypothesis by the
    argument it returns. *)
Ltac py_minmax_at a b spec :=
  let H := fresh "Hcase" in
  let E := fresh "Ecase" in
  destruct (spec a b) as [[H E] | [H E]]; rewrite E in *; clear E.

Ltac py_minmax :=
  match goal with
  | |- context [Py.max ?a ?b] => py_minmax_at a b Py_max_spec
  | |- context [Py.min ?a ?b] => py_minmax_at a b Py_min_spec
  | _ : context [Py.max ?a ?b] |- _ => py_minmax_at a b Py_max_spec
  | _ : context [Py.min ?a ?b] |- _ => py_minmax_at a b Py_min_spec
  end.

(** The clamp [max(0, min(1, x))] stays in the unit interval. *)
Lemma clamp_unit (x : Q) : (0 <= Py.max 0 (Py.min 1 x) <= 1)%Q.
Proof. repeat py_minmax; lra. Qed.

(** The clamp leaves a value of the unit interval as it is. *)
Lemma clamp_id (x : Q) : (0 <= x <= 1)%Q -> (Py.max 0 (Py.min 1 x) == x)%Q.
Proof. intros [Hlo Hhi]. repeat py_minmax; lra. Qed.

(** ** Seniority *)

(** C7: [classify_seniority_level] sends "Chief Marketing Officer" to
    "C-Level", "Regional Sales Manager" to "Manager" and a missing title
    ([None]) to "Unknown". *)
Theorem classify_seniority_level_examples :
  Seniority.classify_seniority_level (Some "Chief Marketing Officer") = "C-Level"
  /\ Seniority.classify_seniority_level (Some "Regional Sales Manager") = "Manager"
  /\ Seniority.classify_seniority_level None = "Unknown".
Proof. repeat split; vm_compute; reflexivity. Qed.

(** ** Gender *)

Open Scope Q_scope.

Lemma calculate_gender_similarity_cases (artist_gender : Py.dict Q)
  (brand_gender : string) :
  let r := Matcher.calculate_gender_similarity artist_gender brand_gender in
  r = 0.6 \/ r = 0.75 \/ r = 0.8 \/ r = 0.9.
Proof.
  unfold Matcher.calculate_gender_similarity.
  repeat match goal with
         | |- context [if ?c then _ else _] => destruct c
         end; tauto.
Qed.

Lemma calculate_gender_similarity_bounds (artist_gender : Py.dict Q)
  (brand_gender : string) :
  0.6 <= Matcher.calculate_gender_similarity artist_gender brand_gender <= 0.9.
Proof.
  destruct (calculate_gender_similarity_cases artist_gender brand_gender)
    as [H | [H | [H | H]]]; rewrite H; lra.
Qed.

(** C10: whatever the artist's gender table and the brand's gender text,
    [calculate_gender_similarity] returns one of 0.6, 0.75, 0.8 and 0.9; so
    the gender component is never below 0.6 and never above 0.9. *)
Theorem calculate_gender_similarity_values :
  forall (artist_gender : Py.dict Q) (brand_gender : string),
    let r := Matcher.calculate_gender_similarity artist_gender brand_gender in
    (r = 0.6 \/ r = 0.75 \/ r = 0.8 \/ r = 0.9) /\ 0.6 <= r <= 0.9.
Proof.
  intros artist_gender brand_gender r. subst r. split.
  - apply calculate_gender_similarity_cases.
  - apply calculate_gender_similarity_bounds.
Qed.

(** ** Tiers *)

Lemma assign_tier_exceptional (m s score : Q) :
  m + 2 * s < score -> Matcher.assign_tier m s score = "Exceptional"%string.
Proof.
  intro H. unfold Matcher.assign_tier.
  py_compare; [reflexivity | lra].
Qed.

Lemma assign_tier_at_mean (m s score : Q) :
  0 <= s -> score == m -> Matcher.assign_tier m s score = "Fair"%string.
Proof.
  intros Hs H. unfold Matcher.assign_tier.
  repeat (py_compare; [lra | ]). reflexivity.
Qed.

(** C3: over a score column with mean [m] and a standard deviation
    [s >= 0], [add_match_tiers] labels every score above [m + 2 s]
    "Exceptional" and a score equal to [m] "Fair". *)
Theorem add_match_tiers_bands :
  forall (std_score : Q) (scores : list Q) (score : Q) (label : string),
    0 <= std_score ->
    In (score, label) (Matcher.add_match_tiers std_score scores) ->
    (Matcher.mean scores + 2 * std_score < score ->
     label = "Exceptional"%string)
    /\ (score == Matcher.mean scores -> label = "Fair"%string).
Proof.
  intros std_score scores score label Hs Hin.
  unfold Matcher.add_match_tiers in Hin.
  apply in_map_iff in Hin. destruct Hin as [x [Hx _]].
  inversion Hx; subst; clear Hx.
  split; intro H.
  - apply assign_tier_exceptional; exact H.
  - apply assign_tier_at_mean; assumption.
Qed.

(** The column 10, 20, 30 has mean 20 and sample deviation 10: the score
    20 is "Fair".  In a column of nine zeros and one 100 (mean 10,
    deviation below 32) the score 100 is "Exceptional". *)
Lemma add_match_tiers_bands_witness :
  In (20, "Fair"%string) (Matcher.add_match_tiers 10 [10; 20; 30])
  /\ In (100, "Exceptional"%string)
        (Matcher.add_match_tiers 32 [0; 0; 0; 0; 0; 0; 0; 0; 0; 100]).
Proof.
  split.
  - assert (Hin : In (20, Matcher.assign_tier (Matcher.mean [10; 20; 30]) 10 20)
                     (Matcher.add_match_tiers 10 [10; 20; 30])).
    { right; left; reflexivity. }
    destruct (add_match_tiers_bands 10 [10; 20; 30] 20 _ ltac:(lra) Hin)
      as [_ Hfair].
    rewrite <- Hfair at 1; [exact Hin | vm_compute; reflexivity].
  - set (col := [0; 0; 0; 0; 0; 0; 0; 0; 0; 100]).
    assert (Hin : In (100, Matcher.assign_tier (Matcher.mean col) 32 100)
                     (Matcher.add_match_tiers 32 col)).
    { do 9 right; left; reflexivity. }
    destruct (add_match_tiers_bands 32 col 100 _ ltac:(lra) Hin)
      as [Hexc _].
    rewrite <- Hexc at 1; [exact Hin | vm_compute; reflexivity].
Defined.

(** ** Consumer attributes *)

(** C6: for the attribute table [{"hard seltzer": +2.0}] and the industry
    "Beer, Wine, Liquor", [calculate_attribute_affinity] returns a score
    above 0.3 and at least one match. *)
Theorem hard_seltzer_affinity :
  let r := Matcher.calculate_attribute_affinity
             [("hard seltzer"%string, 2)] "Beer, Wine, Liquor" in
  0.3 < fst r /\ (1 <= snd r)%nat.
Proof. vm_compute. split; [reflexivity | apply le_n]. Qed.

Example hard_seltzer_affinity_value :
  Matcher.calculate_attribute_affinity
    [("hard seltzer"%string, 2)] "Beer, Wine, Liquor" = (1, 1%nat).
Proof. vm_compute. reflexivity. Qed.

(** ** Folds *)

(** A property kept by every pass of a loop holds when the loop ends. *)
Lemma fold_left_keeps {A B : Type} (f : A -> B -> A) (P : A -> Prop) (l : list B) :
  (forall a b, In b l -> P a -> P (f a b)) ->
  forall a, P a -> P (fold_left f l a).
Proof.
  induction l as [| b l IH]; intros Hstep a Ha; simpl.
  - exact Ha.
  - apply IH.
    + intros a' b' Hin. apply Hstep. right; exact Hin.
    + apply Hstep; [left; reflexivity | exact Ha].
Qed.

(** ** Age *)

Lemma age_map_widths (e : string * (Z * Z)) :
  In e Matcher.age_map -> (fst (snd e) < snd (snd e))%Z.
Proof.
  unfold Matcher.age_map. simpl.
  intros H. repeat (destruct H as [<- | H]; [simpl; lia | ]). contradiction.
Qed.

Lemma brand_age_range_width (brand_age : string) (br : Z * Z) :
  Matcher.brand_age_range brand_age = Some br -> (fst br < snd br)%Z.
Proof.
  unfold Matcher.brand_age_range.
  destruct (find _ Matcher.age_map) as [[lbl t] |] eqn:E; [| discriminate].
  intros [= <-]. apply find_some in E. destruct E as [Hin _].
  apply (age_map_widths _ Hin).
Qed.

Lemma bucket_range_width (group : string) (t : Z * Z) :
  Matcher.bucket_range group = Some t -> (fst t < snd t)%Z.
Proof.
  unfold Matcher.bucket_range, Matcher.artist_age_range.
  destruct (Py.contains "Years Old" group); [| discriminate].
  destruct (find _ Matcher.age_map) as [[lbl t'] |] eqn:E; [| discriminate].
  intros [= <-]. apply find_some in E. destruct E as [Hin _].
  apply (age_map_widths _ Hin).
Qed.

(** The weight of a bucket is at least 1. *)
Lemma weight_ge_1 (index : Q) : 1 <= 1 + Py.max 0 index.
Proof. py_minmax; lra. Qed.

(** The overlap ratio of two ranges lies in the unit interval. *)
Lemma overlap_score_unit (t br : Z * Z) :
  (0 < Matcher.max_overlap_of t br)%Z ->
  0 <= inject_Z (Matcher.overlap_of t br) / inject_Z (Matcher.max_overlap_of t br)
    <= 1.
Proof.
  intro Hpos.
  assert (Hov : (0 <= Matcher.overlap_of t br <= Matcher.max_overlap_of t br)%Z).
  { unfold Matcher.overlap_of, Matcher.max_overlap_of in *. lia. }
  assert (HposQ : 0 < inject_Z (Matcher.max_overlap_of t br)).
  { change 0 with (inject_Z 0). rewrite <- Zlt_Qlt. exact Hpos. }
  split.
  - apply Qle_shift_div_l; [exact HposQ |].
    rewrite Qmult_0_l. change 0 with (inject_Z 0). rewrite <- Zle_Qle. lia.
  - apply Qle_shift_div_r; [exact HposQ |].
    rewrite Qmult_1_l. rewrite <- Zle_Qle. lia.
Qed.

(** What one pass of the age loop does, by the range of the group. *)
Lemma age_step_eq (br : Z * Z) (acc : Q * Q) (group : string) (index : Q) :
  Matcher.age_step br acc (group, index) =
  match Matcher.bucket_range group with
  | Some t =>
      if (0 <? Matcher.max_overlap_of t br)%Z then
        (fst acc
         + inject_Z (Matcher.overlap_of t br)
           / inject_Z (Matcher.max_overlap_of t br) * (1 + Py.max 0 index),
         snd acc + (1 + Py.max 0 index))
      else acc
  | None => acc
  end.
Proof.
  unfold Matcher.age_step, Matcher.bucket_range.
  destruct (Py.contains "Years Old" group); [| reflexivity].
  destruct (Matcher.artist_age_range group); reflexivity.
Qed.

(** The running score never exceeds the running weight. *)
Lemma age_step_unit (br : Z * Z) (acc : Q * Q) (entry : string * Q) :
  0 <= fst acc <= snd acc ->
  0 <= fst (Matcher.age_step br acc entry) <= snd (Matcher.age_step br acc entry).
Proof.
  intros Hacc. destruct entry as [group index]. rewrite age_step_eq.
  destruct (Matcher.bucket_range group) as [t |]; [| exact Hacc].
  destruct (0 <? Matcher.max_overlap_of t br)%Z eqn:Hmo; [| exact Hacc].
  apply Z.ltb_lt in Hmo.
  pose proof (overlap_score_unit t br Hmo) as Hsc.
  pose proof (weight_ge_1 index) as Hw.
  simpl. split; nra.
Qed.

Lemma calculate_age_similarity_unit (artist_age : Py.dict Q) (brand_age : string) :
  0 <= Matcher.calculate_age_similarity artist_age brand_age <= 1.
Proof.
  unfold Matcher.calculate_age_similarity.
  destruct (Matcher.brand_age_range brand_age) as [br |]; [| lra].
  pose proof (fold_left_keeps (Matcher.age_step br)
                (fun acc => 0 <= fst acc <= snd acc) artist_age
                (fun a b _ => age_step_unit br a b) (0, 0)) as Hinv.
  destruct (fold_left (Matcher.age_step br) artist_age (0, 0)) as [ts tw].
  simpl in Hinv. specialize (Hinv ltac:(lra)).
  py_compare; [| lra].
  split.
  - apply Qle_shift_div_l; [exact Hcmp | lra].
  - apply Qle_shift_div_r; [exact Hcmp | lra].
Qed.

(** ** Income *)

Lemma lookup_In {V : Type} (d : Py.dict V) (k : string) (v : V) :
  Py.lookup d k = Some v -> In (k, v) d.
Proof.
  induction d as [| [k' v'] d IH]; simpl; [discriminate |].
  destruct (String.eqb k' k) eqn:E.
  - intros [= ->]. apply String.eqb_eq in E. subst. left; reflexivity.
  - intro H. right. apply IH; exact H.
Qed.

Lemma income_brackets_levels (e : string * Q) :
  In e Matcher.income_brackets -> 1 <= snd e <= 6.
Proof.
  unfold Matcher.income_brackets. simpl.
  intros H. repeat (destruct H as [<- | H]; [simpl; lra | ]). contradiction.
Qed.

Lemma brand_income_level_range (brand_income : string) :
  1 <= Matcher.brand_income_level brand_income <= 6.
Proof.
  unfold Matcher.brand_income_level, Matcher.brand_income_bracket.
  destruct (find _ Matcher.income_brackets) as [[lbl level] |] eqn:E; [| lra].
  apply find_some in E. destruct E as [Hin _].
  apply (income_brackets_levels _ Hin).
Qed.

Lemma income_step_inv (acc : Q * Q) (entry : string * Q) :
  income_inv acc -> income_inv (Matcher.income_step acc entry).
Proof.
  unfold income_inv, Matcher.income_step. intros [Hw Hl].
  destruct entry as [bracket index].
  destruct (Py.lookup Matcher.income_brackets bracket) as [level |] eqn:E;
    [| split; assumption].
  apply lookup_In in E. apply income_brackets_levels in E. simpl in E.
  pose proof (weight_ge_1 index) as Hwt.
  simpl. split; [lra | split; nra].
Qed.

Lemma artist_income_level_range (artist_income : Py.dict Q) :
  1 <= Matcher.artist_income_level artist_income <= 6.
Proof.
  unfold Matcher.artist_income_level.
  pose proof (fold_left_keeps Matcher.income_step income_inv artist_income
                (fun a b _ => income_step_inv a b) (0, 0)) as Hinv.
  destruct (fold_left Matcher.income_step artist_income (0, 0)) as [al tw].
  unfold income_inv in Hinv. simpl in Hinv. specialize (Hinv ltac:(lra)).
  py_compare; [| lra].
  split.
  - apply Qle_shift_div_l; [exact Hcmp | lra].
  - apply Qle_shift_div_r; [exact Hcmp | lra].
Qed.

(** Two levels are at most 5 apart. *)
Lemma income_distance_range (artist_income : Py.dict Q) (brand_income : string) :
  0 <= Matcher.income_distance artist_income brand_income <= 5.
Proof.
  unfold Matcher.income_distance.
  pose proof (artist_income_level_range artist_income) as Ha.
  pose proof (brand_income_level_range brand_income) as Hb.
  split; [apply Qabs_nonneg |].
  apply Qabs_Qle_condition. lra.
Qed.

Lemma fifth (d : Q) : d / 5 == d * (1 # 5).
Proof. reflexivity. Qed.

(** On the levels that occur the clamp does nothing: the similarity is
    one minus a fifth of the distance. *)
Lemma calculate_income_similarity_eq (artist_income : Py.dict Q)
  (brand_income : string) :
  Matcher.calculate_income_similarity artist_income brand_income
  == 1 - Matcher.income_distance artist_income brand_income / 5.
Proof.
  unfold Matcher.calculate_income_similarity.
  pose proof (income_distance_range artist_income brand_income) as Hd.
  apply clamp_id. rewrite fifth. lra.
Qed.

Lemma calculate_income_similarity_unit (artist_income : Py.dict Q)
  (brand_income : string) :
  0 <= Matcher.calculate_income_similarity artist_income brand_income <= 1.
Proof. unfold Matcher.calculate_income_similarity. apply clamp_unit. Qed.

(** C5: when the artist's weighted level equals the brand's level the
    income similarity is 1, and the similarity falls as the distance between
    the two levels grows: a distance at least as large gives a similarity at
    most as large, for one brand and across brands. *)
Theorem income_similarity_by_distance :
  (forall (artist_income : Py.dict Q) (brand_income : string),
      Matcher.artist_income_level artist_income
      == Matcher.brand_income_level brand_income ->
      Matcher.calculate_income_similarity artist_income brand_income == 1)
  /\ (forall (a1 a2 : Py.dict Q) (b1 b2 : string),
         Matcher.income_distance a1 b1 <= Matcher.income_distance a2 b2 ->
         Matcher.calculate_income_similarity a2 b2
         <= Matcher.calculate_income_similarity a1 b1).
Proof.
  split.
  - intros a b Heq. rewrite calculate_income_similarity_eq.
    unfold Matcher.income_distance.
    assert (Hz : Matcher.artist_income_level a - Matcher.brand_income_level b == 0)
      by lra.
    rewrite Hz. vm_compute. reflexivity.
  - intros a1 a2 b1 b2 H. rewrite !calculate_income_similarity_eq, !fifth. lra.
Qed.

(** [[("$50K-$74K", 0)]] against the brand text "$50K-$74K": both at level
    3; [[("Less than $30K", 0)]] is at level 1, two levels away. *)
Lemma income_similarity_by_distance_witness :
  Matcher.calculate_income_similarity
    [("$50K-$74K"%string, 0)] "$50K-$74K" == 1
  /\ Matcher.calculate_income_similarity
       [("Less than $30K"%string, 0)] "$50K-$74K"
     <= Matcher.calculate_income_similarity
          [("$50K-$74K"%string, 0)] "$50K-$74K".
Proof.
  destruct income_similarity_by_distance as [Hsame Hfalls].
  split.
  - apply Hsame. vm_compute. reflexivity.
  - apply Hfalls. apply Qlt_le_weak. vm_compute. reflexivity.
Defined.

(** ** Ethnicity *)

(** Names the outcome of one test of the goal and splits on it. *)
Ltac split_test :=
  match goal with
  | |- context [if ?c then _ else _] =>
      let E := fresh "Htest" in destruct c eqn:E
  end.

Lemma calculate_ethnicity_similarity_range (artist_ethnicity : Py.dict Q)
  (brand_ethnicity : string) :
  0.5 <= Matcher.calculate_ethnicity_similarity artist_ethnicity brand_ethnicity
      <= 1.
Proof.
  unfold Matcher.calculate_ethnicity_similarity.
  split_test; [lra |]. cbv zeta.
  repeat split_test;
    try (apply andb_true_iff in Htest0; destruct Htest0 as [_ Hpos];
         apply Py_gt_true in Hpos);
    try (apply andb_true_iff in Htest1; destruct Htest1 as [_ Hpos];
         apply Py_gt_true in Hpos);
    try (apply andb_true_iff in Htest2; destruct Htest2 as [_ Hpos];
         apply Py_gt_true in Hpos);
    try (apply andb_true_iff in Htest3; destruct Htest3 as [_ Hpos];
         apply Py_gt_true in Hpos);
    py_minmax; lra.
Qed.

(** ** Consumer attributes *)

Lemma affinity_entry_nonneg (brand_lower attr : string) (index : Q)
  (acc : list string * Q) (entry : string * list string) :
  0 <= snd acc ->
  0 <= snd (Matcher.affinity_entry brand_lower attr index acc entry).
Proof.
  intro Hacc. unfold Matcher.affinity_entry. destruct entry as [key industries].
  destruct (Py.contains key (Py.lower attr)); [| exact Hacc].
  destruct (Py.any_in industries brand_lower); [| exact Hacc].
  simpl. py_compare.
  - assert (H3 : 0 <= (1 + index) / 3).
    { apply Qle_shift_div_l; lra. }
    lra.
  - lra.
Qed.

Lemma affinity_attr_nonneg (brand_lower : string) (acc : list string * Q)
  (item : string * Q) :
  0 <= snd acc -> 0 <= snd (Matcher.affinity_attr brand_lower acc item).
Proof.
  unfold Matcher.affinity_attr.
  apply (fold_left_keeps _ (fun a => 0 <= snd a)).
  intros a b _. apply affinity_entry_nonneg.
Qed.

Lemma calculate_attribute_affinity_unit (artist_attrs : Py.dict Q)
  (brand_industries : string) :
  0 <= fst (Matcher.calculate_attribute_affinity artist_attrs brand_industries)
    <= 1.
Proof.
  unfold Matcher.calculate_attribute_affinity.
  split_test; [simpl; lra |].
  pose proof (fold_left_keeps
                (Matcher.affinity_attr (Py.lower brand_industries))
                (fun a => 0 <= snd a) artist_attrs
                (fun a b _ => affinity_attr_nonneg _ a b) ([], 0)) as Hinv.
  destruct (fold_left _ artist_attrs ([], 0)) as [matches total].
  simpl in Hinv. specialize (Hinv ltac:(lra)).
  assert (Hlen : 0 < inject_Z (Z.of_nat (List.length artist_attrs))).
  { destruct artist_attrs as [| item rest]; [discriminate |].
    change 0 with (inject_Z 0). rewrite <- Zlt_Qlt. simpl. lia. }
  set (n := inject_Z (Z.of_nat (List.length artist_attrs))) in *.
  destruct matches as [| m ms]; cbv beta iota zeta delta [fst].
  - py_minmax; lra.
  - assert (Havg : 0 <= total / n).
    { apply Qle_shift_div_l; [exact Hlen | lra]. }
    py_minmax; lra.
Qed.

(** ** Geography *)

Lemma geo_score_of_values (brand_demo : Py.dict string) :
  Matcher.geo_score_of brand_demo = 0.8 \/ Matcher.geo_score_of brand_demo = 0.7.
Proof. unfold Matcher.geo_score_of. split_test; auto. Qed.

(** ** Composite score *)

(** The six component scores of a pair, as [calculate_match_score]
    computes them. *)
Lemma calculate_match_score_fields (a : Matcher.artist) (b : Matcher.brand) :
  let artist_demo := Matcher.audience_parsed a in
  let brand_demo := Matcher.brand_demo_of (Matcher.AudienceParsed b) in
  let age_score :=
    Matcher.calculate_age_similarity
      (Matcher.age artist_demo) (Py.get brand_demo "Age" "") in
  let gender_score :=
    Matcher.calculate_gender_similarity
      (Matcher.gender artist_demo) (Py.get brand_demo "Gender" "All Genders") in
  let income_score :=
    Matcher.calculate_income_similarity
      (Matcher.income artist_demo) (Py.get brand_demo "Household Income" "") in
  let ethnicity_score :=
    Matcher.calculate_ethnicity_similarity
      (Matcher.ethnicity artist_demo) (Py.get brand_demo "Ethnicity" "") in
  let attr_score :=
    fst (Matcher.calculate_attribute_affinity
           (Matcher.attributes artist_demo) (Matcher.Industries b)) in
  let geo_score := Matcher.geo_score_of brand_demo in
  let r := Matcher.calculate_match_score a b in
  Matcher.composite_score r
  == 100 * (0.25 * age_score + 0.15 * gender_score + 0.20 * income_score
            + 0.10 * ethnicity_score + 0.20 * attr_score + 0.10 * geo_score)
  /\ Matcher.age_similarity r = age_score
  /\ Matcher.gender_similarity r = gender_score
  /\ Matcher.income_similarity r = income_score
  /\ Matcher.ethnicity_similarity r = ethnicity_score
  /\ Matcher.attribute_score r == 100 * attr_score
  /\ Matcher.geographic_score r == 100 * geo_score.
Proof.
  intros artist_demo brand_demo age_score gender_score income_score
         ethnicity_score attr_score geo_score r.
  subst r attr_score. unfold Matcher.calculate_match_score.
  fold artist_demo brand_demo.
  destruct (Matcher.calculate_attribute_affinity
              (Matcher.attributes artist_demo) (Matcher.Industries b))
    as [attr_score attr_matches].
  cbn [Matcher.composite_score Matcher.age_similarity Matcher.gender_similarity
       Matcher.income_similarity Matcher.ethnicity_similarity
       Matcher.attribute_score Matcher.geographic_score
       Matcher.calculate_demographic_similarity Matcher.demo_age
       Matcher.demo_gender Matcher.demo_income Matcher.demo_ethnicity
       Matcher.match_weights Matcher.w_age Matcher.w_gender Matcher.w_income
       Matcher.w_ethnicity Matcher.w_attributes Matcher.w_geographic fst].
  fold age_score gender_score income_score ethnicity_score geo_score.
  repeat split; try reflexivity; ring.
Qed.

(** C2: the composite score of an artist and a brand is 100 times the
    weighted sum of the six component scores, with the weights 0.25 (age),
    0.15 (gender), 0.20 (income), 0.10 (ethnicity), 0.20 (attributes) and
    0.10 (geography), which add up to 1; the component scores are those of
    the per-dimension functions, as the result reports them. *)
Theorem composite_score_weighted_sum :
  forall (a : Matcher.artist) (b : Matcher.brand),
    let artist_demo := Matcher.audience_parsed a in
    let brand_demo := Matcher.brand_demo_of (Matcher.AudienceParsed b) in
    let age_score :=
      Matcher.calculate_age_similarity
        (Matcher.age artist_demo) (Py.get brand_demo "Age" "") in
    let gender_score :=
      Matcher.calculate_gender_similarity
        (Matcher.gender artist_demo) (Py.get brand_demo "Gender" "All Genders") in
    let income_score :=
      Matcher.calculate_income_similarity
        (Matcher.income artist_demo) (Py.get brand_demo "Household Income" "") in
    let ethnicity_score :=
      Matcher.calculate_ethnicity_similarity
        (Matcher.ethnicity artist_demo) (Py.get brand_demo "Ethnicity" "") in
    let attr_score :=
      fst (Matcher.calculate_attribute_affinity
             (Matcher.attributes artist_demo) (Matcher.Industries b)) in
    let geo_score := Matcher.geo_score_of brand_demo in
    let r := Matcher.calculate_match_score a b in
    Matcher.composite_score r
    == 100 * (0.25 * age_score + 0.15 * gender_score + 0.20 * income_score
              + 0.10 * ethnicity_score + 0.20 * attr_score + 0.10 * geo_score)
    /\ 0.25 + 0.15 + 0.20 + 0.10 + 0.20 + 0.10 == 1
    /\ Matcher.age_similarity r = age_score
    /\ Matcher.gender_similarity r = gender_score
    /\ Matcher.income_similarity r = income_score
    /\ Matcher.ethnicity_similarity r = ethnicity_score
    /\ Matcher.attribute_score r == 100 * attr_score
    /\ Matcher.geographic_score r == 100 * geo_score.
Proof.
  intros a b artist_demo brand_demo age_score gender_score income_score
         ethnicity_score attr_score geo_score r.
  destruct (calculate_match_score_fields a b) as [Hsum Hfields].
  split; [exact Hsum | split; [reflexivity | exact Hfields]].
Qed.

(** C1: for every artist and every brand, the composite score that
    [calculate_match_score] returns lies between 0 and 100. *)
Theorem composite_score_range :
  forall (a : Matcher.artist) (b : Matcher.brand),
    0 <= Matcher.composite_score (Matcher.calculate_match_score a b) <= 100.
Proof.
  intros a b.
  destruct (calculate_match_score_fields a b) as [Hsum _].
  cbv zeta in Hsum. rewrite Hsum. clear Hsum.
  set (brand_demo := Matcher.brand_demo_of (Matcher.AudienceParsed b)).
  pose proof (calculate_age_similarity_unit
                (Matcher.age (Matcher.audience_parsed a))
                (Py.get brand_demo "Age" "")) as Hage.
  pose proof (calculate_gender_similarity_bounds
                (Matcher.gender (Matcher.audience_parsed a))
                (Py.get brand_demo "Gender" "All Genders")) as Hgender.
  pose proof (calculate_income_similarity_unit
                (Matcher.income (Matcher.audience_parsed a))
                (Py.get brand_demo "Household Income" "")) as Hincome.
  pose proof (calculate_ethnicity_similarity_range
                (Matcher.ethnicity (Matcher.audience_parsed a))
                (Py.get brand_demo "Ethnicity" "")) as Hethnicity.
  pose proof (calculate_attribute_affinity_unit
                (Matcher.attributes (Matcher.audience_parsed a))
                (Matcher.Industries b)) as Hattr.
  destruct (geo_score_of_values brand_demo) as [Hgeo | Hgeo]; rewrite Hgeo;
    lra.
Qed.

(** ** Age: full and empty overlap *)

(** A group with a range always counts: two ranges of [age_map] have a
    positive smaller width. *)
Lemma age_step_recognised (br : Z * Z) (acc : Q * Q) (group : string)
  (index : Q) (t : Z * Z) :
  (fst br < snd br)%Z ->
  Matcher.bucket_range group = Some t ->
  Matcher.age_step br acc (group, index)
  = (fst acc
     + inject_Z (Matcher.overlap_of t br)
       / inject_Z (Matcher.max_overlap_of t br) * (1 + Py.max 0 index),
     snd acc + (1 + Py.max 0 index)).
Proof.
  intros Hbr Ht. rewrite age_step_eq, Ht.
  pose proof (bucket_range_width _ _ Ht) as Hw.
  assert (Hmo : (0 <? Matcher.max_overlap_of t br)%Z = true).
  { apply Z.ltb_lt. unfold Matcher.max_overlap_of. lia. }
  rewrite Hmo. reflexivity.
Qed.

Lemma age_step_skipped (br : Z * Z) (acc : Q * Q) (group : string) (index : Q) :
  Matcher.bucket_range group = None ->
  Matcher.age_step br acc (group, index) = acc.
Proof. intro Hn. rewrite age_step_eq, Hn. reflexivity. Qed.

(** The total weight grows by at least 1 with every group that has a
    range. *)
Lemma age_fold_weight (br : Z * Z) (artist_age : Py.dict Q) :
  (fst br < snd br)%Z ->
  forall acc : Q * Q,
    snd acc <= snd (fold_left (Matcher.age_step br) artist_age acc)
    /\ ((exists group index t,
            In (group, index) artist_age
            /\ Matcher.bucket_range group = Some t) ->
        snd acc + 1 <= snd (fold_left (Matcher.age_step br) artist_age acc)).
Proof.
  intro Hbr. induction artist_age as [| [group index] rest IH]; intro acc;
    cbn [fold_left In].
  - split; [lra |]. intros [g [i [t [[] _]]]].
  - destruct (IH (Matcher.age_step br acc (group, index))) as [IHle IHex].
    pose proof (weight_ge_1 index) as Hwt.
    destruct (Matcher.bucket_range group) as [t |] eqn:Ht.
    + rewrite (age_step_recognised br acc group index t Hbr Ht) in *.
      set (F := fold_left _ _ _) in *. cbn [snd] in IHle.
      split; [lra |]. intros _. lra.
    + rewrite (age_step_skipped br acc group index Ht) in *.
      split; [exact IHle |].
      intros [g [i [t [[Heq | Hin] Hg]]]].
      * inversion Heq; subst. congruence.
      * apply IHex. exists g, i, t. split; assumption.
Qed.

(** When every group with a range has the same overlap ratio [c], the
    total score is [c] times the total weight. *)
Lemma age_fold_constant (br : Z * Z) (c : Q) (artist_age : Py.dict Q) :
  (fst br < snd br)%Z ->
  (forall group index t,
      In (group, index) artist_age ->
      Matcher.bucket_range group = Some t ->
      inject_Z (Matcher.overlap_of t br)
      / inject_Z (Matcher.max_overlap_of t br) == c) ->
  forall acc : Q * Q,
    fst (fold_left (Matcher.age_step br) artist_age acc) - fst acc
    == c * (snd (fold_left (Matcher.age_step br) artist_age acc) - snd acc).
Proof.
  intro Hbr. induction artist_age as [| [group index] rest IH];
    intros Hall acc; cbn [fold_left].
  - ring.
  - assert (Hrest : forall g i t, In (g, i) rest ->
                                  Matcher.bucket_range g = Some t ->
                                  inject_Z (Matcher.overlap_of t br)
                                  / inject_Z (Matcher.max_overlap_of t br) == c).
    { intros g i t Hin. apply (Hall g i t). right; exact Hin. }
    specialize (IH Hrest (Matcher.age_step br acc (group, index))).
    destruct (Matcher.bucket_range group) as [t |] eqn:Ht.
    + rewrite (age_step_recognised br acc group index t Hbr Ht) in *.
      set (F := fold_left _ _ _) in *.
      set (wt := 1 + Py.max 0 index) in *.
      cbn [fst snd] in IH.
      rewrite (Hall group index t (or_introl eq_refl) Ht) in IH.
      assert (E : fst F - fst acc
                  == (fst F - (fst acc + c * wt)) + c * wt) by ring.
      rewrite E, IH. ring.
    + rewrite (age_step_skipped br acc group index Ht) in *. exact IH.
Qed.



(** With a group that has a range, the similarity is the common overlap
    ratio. *)
Lemma calculate_age_similarity_constant (c : Q) (artist_age : Py.dict Q)
  (brand_age : string) (br : Z * Z) :
  Matcher.brand_age_range brand_age = Some br ->
  (exists group index t,
      In (group, index) artist_age /\ Matcher.bucket_range group = Some t) ->
  (forall group index t,
      In (group, index) artist_age ->
      Matcher.bucket_range group = Some t ->
      inject_Z (Matcher.overlap_of t br)
      / inject_Z (Matcher.max_overlap_of t br) == c) ->
  Matcher.calculate_age_similarity artist_age brand_age == c.
Proof.
  intros Hbrand Hex Hall.
  pose proof (brand_age_range_width _ _ Hbrand) as Hbr.
  unfold Matcher.calculate_age_similarity. rewrite Hbrand.
  pose proof (age_fold_constant br c artist_age Hbr Hall (0, 0)) as Hsum.
  destruct (age_fold_weight br artist_age Hbr (0, 0)) as [_ Hw].
  specialize (Hw Hex).
  destruct (fold_left (Matcher.age_step br) artist_age (0, 0)) as [ts tw].
  simpl in Hsum, Hw.
  py_compare; [| lra].
  assert (Hts : ts == c * tw) by lra.
  rewrite Hts. field. lra.
Qed.


(** The range of a group is the first entry of [age_map] with an age that
    occurs in the label: "40-49 Years Old" is given 28-43, and scores 1/3
    against the brand text "40-49". *)
Example age_label_40_49 :
  Matcher.bucket_range "40-49 Years Old" = Some (28, 43)%Z
  /\ Matcher.calculate_age_similarity [("40-49 Years Old"%string, 1)] "40-49"
     == 1 # 3.
Proof. split; vm_compute; reflexivity. Qed.

Example age_two_buckets_value :
  Matcher.calculate_age_similarity
    [("21-29 Years Old"%string, 2); ("50-59 Years Old"%string, -1)] "21-29"
  == 3 # 4.
Proof. vm_compute. reflexivity. Qed.



(** ** Missing inputs *)


Lemma calculate_age_similarity_missing (artist_age : Py.dict Q)
  (brand_age : string) :
  artist_age = [] \/ Matcher.brand_age_range brand_age = None ->
  Matcher.calculate_age_similarity artist_age brand_age = 0.5.
Proof.
  unfold Matcher.calculate_age_similarity. intros [-> | ->].
  - destruct (Matcher.brand_age_range brand_age); reflexivity.
  - reflexivity.
Qed.



(** A level between 1 and 6 is at most 2.5 away from the default 3.5. *)
Lemma income_default_side (x y : Q) :
  1 <= x <= 6 -> 1 <= y <= 6 -> x = 3.5 \/ y = 3.5 ->
  0 <= Qabs (x - y) <= 2.5.
Proof.
  intros Hx Hy Hdef. split; [apply Qabs_nonneg |].
  apply Qabs_Qle_condition. destruct Hdef as [-> | ->]; lra.
Qed.

Lemma calculate_income_similarity_missing (artist_income : Py.dict Q)
  (brand_income : string) :
  artist_income = [] \/ Matcher.brand_income_bracket brand_income = None ->
  0.5 <= Matcher.calculate_income_similarity artist_income brand_income <= 1.
Proof.
  intro Hmissing.
  rewrite calculate_income_similarity_eq, fifth.
  unfold Matcher.income_distance.
  pose proof (artist_income_level_range artist_income) as Ha.
  pose proof (brand_income_level_range brand_income) as Hb.
  assert (Hd : 0 <= Qabs (Matcher.artist_income_level artist_income
                          - Matcher.brand_income_level brand_income) <= 2.5).
  { apply income_default_side; [exact Ha | exact Hb |].
    destruct Hmissing as [-> | Hnone].
    - left. reflexivity.
    - right. unfold Matcher.brand_income_level. rewrite Hnone. reflexivity. }
  lra.
Qed.





(** ** Audience blobs *)

(** The placeholder text reads, once its quotes are normalised, as the
    JSON object with one empty key and empty value; the function returns
    the empty dict for it all the same. *)
Lemma placeholder_counterexample :
  ~ (forall (json_loads : string -> Matcher.outcome Matcher.json)
            (text : string) (v : Matcher.json),
        json_loads (Matcher.quote_normalize text) = Matcher.Returns v ->
        Matcher.parse_brand_audience json_loads (Some text)
        = Matcher.Returns v).
Proof.
  intro Hclaim.
  specialize (Hclaim Matcher.sample_loads Matcher.empty_placeholder
                     (Matcher.JObj [(""%string, Matcher.JStr "")]) eq_refl).
  vm_compute in Hclaim. discriminate Hclaim.
Qed.

(** C9, as the code has it: [parse_brand_audience] returns for every
    input and never raises; for a text other than the placeholder
    [{'': ''}] whose quote-normalised form [json.loads] decodes, it returns
    the decoded value; for a missing value, for the placeholder and for a
    text [json.loads] rejects, it returns the empty dict. *)
Theorem parse_brand_audience_total :
  forall (json_loads : string -> Matcher.outcome Matcher.json)
         (audience_json : option string),
    (exists v, Matcher.parse_brand_audience json_loads audience_json
               = Matcher.Returns v)
    /\ (forall text v,
           audience_json = Some text ->
           text <> Matcher.empty_placeholder ->
           json_loads (Matcher.quote_normalize text) = Matcher.Returns v ->
           Matcher.parse_brand_audience json_loads audience_json
           = Matcher.Returns v)
    /\ (audience_json = None \/ audience_json = Some Matcher.empty_placeholder ->
        Matcher.parse_brand_audience json_loads audience_json
        = Matcher.Returns (Matcher.JObj []))
    /\ (forall text,
           audience_json = Some text ->
           json_loads (Matcher.quote_normalize text) = Matcher.Raises ->
           Matcher.parse_brand_audience json_loads audience_json
           = Matcher.Returns (Matcher.JObj [])).
Proof.
  intros json_loads audience_json.
  unfold Matcher.parse_brand_audience, Matcher.parse_brand_audience_body,
    Matcher.try_except.
  split; [| split; [| split]].
  - destruct audience_json as [text |]; [| eexists; reflexivity].
    destruct (String.eqb text Matcher.empty_placeholder);
      [eexists; reflexivity |].
    destruct (json_loads (Matcher.quote_normalize text)); eexists; reflexivity.
  - intros text v -> Hne Hloads.
    apply String.eqb_neq in Hne. rewrite Hne, Hloads. reflexivity.
  - intros [-> | ->]; reflexivity.
  - intros text -> Hloads.
    destruct (String.eqb text Matcher.empty_placeholder); [reflexivity |].
    rewrite Hloads. reflexivity.
Qed.

(** A blob with single quotes is decoded; a blob that is no JSON, a
    missing blob and the placeholder give the empty dict. *)
Lemma parse_brand_audience_total_witness :
  Matcher.parse_brand_audience Matcher.sample_loads (Some "{'Age': '21-29'}")
  = Matcher.Returns (Matcher.JObj [("Age"%string, Matcher.JStr "21-29")])
  /\ Matcher.parse_brand_audience Matcher.sample_loads (Some "{'Age': ")
     = Matcher.Returns (Matcher.JObj [])
  /\ Matcher.parse_brand_audience Matcher.sample_loads None
     = Matcher.Returns (Matcher.JObj [])
  /\ Matcher.parse_brand_audience Matcher.sample_loads
       (Some Matcher.empty_placeholder)
     = Matcher.Returns (Matcher.JObj []).
Proof.
  split; [| split; [| split]].
  - destruct (parse_brand_audience_total Matcher.sample_loads
                (Some "{'Age': '21-29'}"%string)) as [_ [Hparsed _]].
    apply (Hparsed "{'Age': '21-29'}"%string); [reflexivity | | reflexivity].
    intro Heq. discriminate Heq.
  - destruct (parse_brand_audience_total Matcher.sample_loads
                (Some "{'Age': "%string)) as [_ [_ [_ Hbad]]].
    apply (Hbad "{'Age': "%string); reflexivity.
  - destruct (parse_brand_audience_total Matcher.sample_loads None)
      as [_ [_ [Hempty _]]].
    apply Hempty. left. reflexivity.
  - destruct (parse_brand_audience_total Matcher.sample_loads
                (Some Matcher.empty_placeholder)) as [_ [_ [Hempty _]]].
    apply Hempty. right. reflexivity.
Defined.

(** * Further properties *)

(** ** Strings *)

Open Scope string_scope.

Lemma prefix_app (needle haystack : string) :
  String.prefix needle haystack = true
  <-> exists post, haystack = needle ++ post.
Proof.
  revert haystack.
  induction needle as [| c needle IH]; intros [| d haystack]; simpl.
  - split; [intros _; exists ""; reflexivity | reflexivity].
  - split; [intros _; eexists; reflexivity | reflexivity].
  - split; [discriminate | intros [post H]; discriminate H].
  - destruct (ascii_dec c d) as [-> | Hne].
    + rewrite IH. split; intros [post H]; exists post.
      * rewrite H. reflexivity.
      * inversion H. reflexivity.
    + split; [discriminate |].
      intros [post H]. inversion H. congruence.
Qed.

Lemma contains_eq (needle haystack : string) :
  Py.contains needle haystack
  = if String.prefix needle haystack then true
    else match haystack with
         | "" => false
         | String _ rest => Py.contains needle rest
         end.
Proof. destruct haystack; reflexivity. Qed.

(** [needle in haystack] holds exactly when the haystack is some text, the
    needle, and some text. *)
Lemma contains_app (needle haystack : string) :
  Py.contains needle haystack = true
  <-> exists pre post, haystack = pre ++ needle ++ post.
Proof.
  induction haystack as [| d haystack IH]; rewrite contains_eq.
  - destruct (String.prefix needle "") eqn:E.
    + apply prefix_app in E. destruct E as [post E].
      split; [intros _; exists "", post; exact E | reflexivity].
    + split; [discriminate |].
      intros [pre [post H]]. destruct pre; simpl in H.
      * assert (Hp : String.prefix needle "" = true)
          by (apply prefix_app; exists post; exact H).
        congruence.
      * discriminate H.
  - destruct (String.prefix needle (String d haystack)) eqn:E.
    + apply prefix_app in E. destruct E as [post E].
      split; [intros _; exists "", post; exact E | reflexivity].
    + rewrite IH. split.
      * intros [pre [post H]]. exists (String d pre), post. simpl.
        rewrite H. reflexivity.
      * intros [pre [post H]]. destruct pre as [| e pre]; simpl in H.
        -- assert (Hp : String.prefix needle (String d haystack) = true)
             by (apply prefix_app; exists post; exact H).
           congruence.
        -- inversion H. exists pre, post. reflexivity.
Qed.

Lemma append_assoc (a b c : string) : (a ++ b) ++ c = a ++ (b ++ c).
Proof. induction a as [| x a IH]; simpl; [reflexivity | rewrite IH; reflexivity]. Qed.

(** A text that occurs in a part of a text occurs in the text. *)
Lemma contains_trans (a b c : string) :
  Py.contains a b = true -> Py.contains b c = true -> Py.contains a c = true.
Proof.
  rewrite !contains_app. intros [p1 [q1 H1]] [p2 [q2 H2]].
  exists (p2 ++ p1), (q1 ++ q2). subst.
  rewrite !append_assoc. reflexivity.
Qed.

Lemma lower_ascii_idem (c : ascii) :
  Py.lower_ascii (Py.lower_ascii c) = Py.lower_ascii c.
Proof.
  destruct c as [[] [] [] [] [] [] [] []]; vm_compute; reflexivity.
Qed.

(** Lower-casing a lower-cased text changes nothing. *)
Lemma lower_idem (s : string) : Py.lower (Py.lower s) = Py.lower s.
Proof.
  induction s as [| c s IH]; simpl; [reflexivity |].
  rewrite lower_ascii_idem, IH. reflexivity.
Qed.

Lemma lower_empty (s : string) : Py.lower s = "" <-> s = "".
Proof. destruct s; simpl; split; intro H; try reflexivity; discriminate H. Qed.

Lemma contains_in_empty (needle : string) :
  Py.contains needle "" = true -> needle = "".
Proof.
  rewrite contains_app. intros [pre [post H]].
  destruct pre; [| discriminate H]. destruct needle; [reflexivity | discriminate H].
Qed.

(** ** Seniority levels *)

Lemma classify_is_label (title : option string) :
  exists l, Seniority.classify_seniority_level title = Seniority.label l.
Proof.
  unfold Seniority.classify_seniority_level.
  destruct title as [t |]; [| eexists; reflexivity].
  repeat match goal with
         | |- context [if ?c then _ else _] => destruct c
         end; eexists; reflexivity.
Qed.

(** Unfolds the classifier on a title that is not empty. *)
Lemma classify_nonempty (t : string) :
  t <> "" ->
  Seniority.classify_seniority_level (Some t)
  = let title_lower := Py.lower t in
    if Py.any_in Seniority.c_level_words title_lower then "C-Level"
    else if Py.any_in Seniority.senior_vp_words title_lower then "Senior VP"
    else if Py.any_in Seniority.vp_words title_lower then "VP"
    else if Py.any_in Seniority.senior_director_words title_lower
         then "Senior Director"
    else if Py.contains "director" title_lower then "Director"
    else if Py.any_in Seniority.senior_manager_words title_lower
         then "Senior Manager"
    else if Py.contains "manager" title_lower then "Manager"
    else "Individual Contributor".
Proof.
  intro Hne. unfold Seniority.classify_seniority_level.
  apply String.eqb_neq in Hne. rewrite Hne. reflexivity.
Qed.

Lemma any_in_intro (words : list string) (text word : string) :
  In word words -> Py.contains word text = true ->
  Py.any_in words text = true.
Proof.
  intros Hin Hc. unfold Py.any_in. apply existsb_exists.
  exists word. split; assumption.
Qed.

Lemma seniority_score_some (r : Engagement.meeting) :
  exists score : Z,
    Engagement.seniority_score r = Some score /\ (0 <= score <= 7)%Z.
Proof.
  unfold Engagement.seniority_score, Engagement.seniority_level.
  destruct (classify_is_label (Engagement.Title r)) as [l ->].
  destruct l; eexists; (split; [reflexivity | lia]).
Qed.

(** X1: every title, missing and empty ones too, gets a seniority score:
    the level [classify_seniority_level] returns is always a key of
    [seniority_scores], so the score column has no NaN, and the score lies
    between 0 and 7. *)
Theorem seniority_score_defined :
  forall r : Engagement.meeting,
  exists score : Z,
    Engagement.seniority_score r = Some score /\ (0 <= score <= 7)%Z.
Proof. exact seniority_score_some. Qed.

(** X2: a title in which "president" occurs, in any letter case, is
    "C-Level"; so is every title with "vice president", "senior vice
    president" or "executive vice president" in it, which therefore never
    comes out as "VP" or "Senior VP". *)
Theorem president_is_c_level :
  forall (t keyword : string),
    In keyword ["president"; "vice president"; "senior vice president";
                "executive vice president"] ->
    Py.contains keyword (Py.lower t) = true ->
    Seniority.classify_seniority_level (Some t) = "C-Level".
Proof.
  intros t keyword Hkey Hocc.
  assert (Hpres : Py.contains "president" (Py.lower t) = true).
  { apply (contains_trans _ keyword); [| exact Hocc].
    simpl in Hkey.
    repeat (destruct Hkey as [<- | Hkey]; [reflexivity |]). contradiction. }
  assert (Hne : t <> "").
  { intros ->. apply contains_in_empty in Hpres. discriminate Hpres. }
  rewrite (classify_nonempty t Hne). cbv zeta.
  rewrite (any_in_intro Seniority.c_level_words _ "president");
    [reflexivity | simpl; tauto | exact Hpres].
Qed.

Lemma president_is_c_level_witness :
  Seniority.classify_seniority_level (Some "Senior Vice President, Sales")
  = "C-Level".
Proof.
  apply (president_is_c_level _ "senior vice president").
  - simpl. tauto.
  - reflexivity.
Defined.

(** X3: the classifier does not see letter case: two titles with the same
    lower-casing get the same level. *)
Theorem classify_ignores_case :
  forall t1 t2 : string,
    Py.lower t1 = Py.lower t2 ->
    Seniority.classify_seniority_level (Some t1)
    = Seniority.classify_seniority_level (Some t2).
Proof.
  intros t1 t2 Hlow. unfold Seniority.classify_seniority_level.
  assert (Hempty : String.eqb t1 "" = String.eqb t2 "").
  { destruct (String.eqb_spec t1 "") as [-> | H1];
      destruct (String.eqb_spec t2 "") as [-> | H2]; try reflexivity.
    - symmetry in Hlow. apply (proj1 (lower_empty t2)) in Hlow. contradiction.
    - apply (proj1 (lower_empty t1)) in Hlow. contradiction. }
  rewrite Hempty, Hlow. reflexivity.
Qed.

Lemma classify_ignores_case_witness :
  Seniority.classify_seniority_level (Some "VP Marketing")
  = Seniority.classify_seniority_level (Some "vp mARKETING").
Proof. apply classify_ignores_case. reflexivity. Defined.

(** X4: "Unknown" is returned for a missing or empty title and for no
    other: every title with a character in it gets one of the eight proper
    levels. *)
Theorem classify_unknown_iff :
  forall title : option string,
    Seniority.classify_seniority_level title = "Unknown"
    <-> title = None \/ title = Some "".
Proof.
  intro title. split.
  - destruct title as [t |]; [| left; reflexivity].
    destruct (String.eqb_spec t "") as [-> | Hne]; [right; reflexivity |].
    rewrite (classify_nonempty t Hne). cbv zeta.
    repeat match goal with
           | |- context [if ?c then _ else _] => destruct c
           end; intro H; discriminate H.
  - intros [-> | ->]; reflexivity.
Qed.

Lemma classify_unknown_iff_witness :
  Seniority.classify_seniority_level (Some "") = "Unknown".
Proof. apply classify_unknown_iff. right. reflexivity. Defined.

(** ** Early executive access *)

Lemma fold_max_ge (bound x : Z) (rest : list Z) :
  (bound <= fold_left Z.max rest x)%Z
  <-> exists y, In y (x :: rest) /\ (bound <= y)%Z.
Proof.
  revert x. induction rest as [| z rest IH]; intro x; cbn [fold_left].
  - split.
    + intro H. exists x. split; [left; reflexivity | exact H].
    + intros [y [[<- | []] H]]. exact H.
  - rewrite IH. split.
    + intros [y [[<- | Hin] H]].
      * destruct (Z.max_spec x z) as [[_ E] | [_ E]]; rewrite E in H.
        -- exists z. split; [right; left; reflexivity | exact H].
        -- exists x. split; [left; reflexivity | exact H].
      * exists y. split; [right; right; exact Hin | exact H].
    + intros [y [[<- | [<- | Hin]] H]].
      * exists (Z.max x z). split; [left; reflexivity | lia].
      * exists (Z.max x z). split; [left; reflexivity | lia].
      * exists y. split; [right; exact Hin | exact H].
Qed.

Lemma account_scores_In (df : list Engagement.meeting) (account : string)
  (score : Z) :
  In score (Engagement.account_scores df account)
  <-> exists r, In r df /\ Engagement.AccountId r = account
                /\ Engagement.seniority_score r = Some score.
Proof.
  unfold Engagement.account_scores. rewrite in_flat_map. split.
  - intros [r [Hin Hs]]. exists r. split; [exact Hin |].
    destruct (String.eqb_spec (Engagement.AccountId r) account) as [E | E];
      [| contradiction].
    destruct (Engagement.seniority_score r) as [s |]; [| contradiction].
    destruct Hs as [<- | []]. split; [exact E | reflexivity].
  - intros [r [Hin [E Hs]]]. exists r. split; [exact Hin |].
    rewrite E, String.eqb_refl, Hs. left; reflexivity.
Qed.

(** A score of 5 or more is that of the levels VP, Senior VP and
    C-Level. *)
Lemma score_ge_5 (r : Engagement.meeting) (score : Z) :
  Engagement.seniority_score r = Some score ->
  ((5 <= score)%Z
   <-> In (Engagement.seniority_level r) ["VP"; "Senior VP"; "C-Level"]).
Proof.
  unfold Engagement.seniority_score, Engagement.seniority_level.
  destruct (classify_is_label (Engagement.Title r)) as [l ->].
  destruct l; simpl; intros [= <-]; split; intro H;
    solve [ lia | tauto
          | repeat (destruct H as [H | H]; [discriminate H |]); contradiction ].
Qed.

Lemma fold_max_In (x : Z) (rest : list Z) :
  In (fold_left Z.max rest x) (x :: rest).
Proof.
  revert x. induction rest as [| z rest IH]; intro x; cbn [fold_left].
  - left; reflexivity.
  - destruct (IH (Z.max x z)) as [E | Hin].
    + destruct (Z.max_spec x z) as [[_ Hm] | [_ Hm]]; rewrite Hm in *.
      * right; left; exact E.
      * left; exact E.
    + right; right; exact Hin.
Qed.

(** The scores of the early meetings of an account. *)
Lemma early_scores_In (df : list Engagement.meeting) (account : string)
  (score : Z) :
  In score (Engagement.account_scores (Engagement.early_meetings df) account)
  <-> exists r, In r df /\ Engagement.AccountId r = account
                /\ (Engagement.meeting_sequence r <= 3)%Z
                /\ Engagement.seniority_score r = Some score.
Proof.
  rewrite account_scores_In. unfold Engagement.early_meetings. split.
  - intros [r [Hin [E Hs]]]. apply filter_In in Hin.
    destruct Hin as [Hin Hseq]. apply Z.leb_le in Hseq.
    exists r. tauto.
  - intros [r [Hin [E [Hseq Hs]]]]. exists r.
    split; [| tauto]. apply filter_In. split; [exact Hin |].
    apply Z.leb_le. exact Hseq.
Qed.

(** X5: an account is flagged [has_early_executive] exactly when one of
    its meetings with sequence number at most 3 is with a contact whose
    title is classified "VP", "Senior VP" or "C-Level".  The value
    [early_executive_access] behind the flag lies between 0 and 7 and is at
    least the score of every such early meeting; for an account without a
    meeting of sequence number at most 3 it is 0, and the account is not
    flagged. *)
Theorem has_early_executive_iff :
  forall (df : list Engagement.meeting) (account : string),
    (Engagement.has_early_executive df account = true
     <-> exists r,
         In r df /\ Engagement.AccountId r = account
         /\ (Engagement.meeting_sequence r <= 3)%Z
         /\ In (Engagement.seniority_level r) ["VP"; "Senior VP"; "C-Level"])
    /\ ((forall r, In r df -> Engagement.AccountId r = account ->
                   (3 < Engagement.meeting_sequence r)%Z) ->
        Engagement.early_executive_access df account = 0%Z
        /\ Engagement.has_early_executive df account = false)
    /\ (forall r score,
           In r df -> Engagement.AccountId r = account ->
           (Engagement.meeting_sequence r <= 3)%Z ->
           Engagement.seniority_score r = Some score ->
           (score <= Engagement.early_executive_access df account)%Z)
    /\ (0 <= Engagement.early_executive_access df account <= 7)%Z.
Proof.
  intros df account.
  pose proof (early_scores_In df account) as Hscores.
  unfold Engagement.has_early_executive, Engagement.early_executive_access,
    Engagement.group_max.
  destruct (Engagement.account_scores (Engagement.early_meetings df) account)
    as [| x rest] eqn:Hlist.
  - split; [| split; [| split]].
    + rewrite Z.leb_le. split; [lia |].
      intros [r [Hin [E [Hseq Hlevel]]]].
      destruct (seniority_score_some r) as [score [Hs _]].
      assert (Hnone : In score []).
      { apply Hscores. exists r. tauto. }
      destruct Hnone.
    + intros _. split; reflexivity.
    + intros r score Hin E Hseq Hs.
      assert (Hnone : In score []).
      { apply Hscores. exists r. tauto. }
      destruct Hnone.
    + lia.
  - split; [| split; [| split]].
    + rewrite Z.leb_le, fold_max_ge. split.
      * intros [y [Hy Hge]]. apply Hscores in Hy.
        destruct Hy as [r [Hin [E [Hseq Hs]]]]. exists r.
        repeat split; try assumption. apply (score_ge_5 r y Hs). exact Hge.
      * intros [r [Hin [E [Hseq Hlevel]]]].
        destruct (seniority_score_some r) as [score [Hs _]].
        exists score. split.
        -- apply Hscores. exists r. tauto.
        -- apply (score_ge_5 r score Hs). exact Hlevel.
    + intro Hlate. exfalso.
      assert (Hx : In x (x :: rest)) by (left; reflexivity).
      apply Hscores in Hx. destruct Hx as [r [Hin [E [Hseq _]]]].
      specialize (Hlate r Hin E). lia.
    + intros r score Hin E Hseq Hs. apply fold_max_ge.
      exists score. split; [| lia].
      apply Hscores. exists r. tauto.
    + pose proof (fold_max_In x rest) as Hmax.
      apply Hscores in Hmax. destruct Hmax as [r [_ [_ [_ Hs]]]].
      destruct (seniority_score_some r) as [score [Hs' Hrange]].
      rewrite Hs in Hs'. inversion Hs'; subst. exact Hrange.
Qed.

(** ** Meeting phases *)

(** X6: for an account with a given number of meetings the phase never
    goes back as the sequence number grows: a meeting before an "Early" one
    is "Early", a meeting after a "Late" one is "Late". *)
Theorem categorize_meeting_phase_monotone :
  forall total s1 s2 : Z,
    (s1 <= s2)%Z ->
    (Engagement.categorize_meeting_phase total s2 = "Early" ->
     Engagement.categorize_meeting_phase total s1 = "Early")
    /\ (Engagement.categorize_meeting_phase total s1 = "Late" ->
        Engagement.categorize_meeting_phase total s2 = "Late").
Proof.
  intros total s1 s2 Hle. unfold Engagement.categorize_meeting_phase.
  cbv zeta.
  repeat match goal with
         | |- context [(?a <=? ?b)%Z] =>
             destruct (Z.leb_spec a b)
         end;
    split; intro Hphase; try reflexivity; try discriminate Hphase; lia.
Qed.

Lemma categorize_meeting_phase_monotone_witness :
  Engagement.categorize_meeting_phase 9 2 = "Early"
  /\ Engagement.categorize_meeting_phase 9 8 = "Late".
Proof.
  split.
  - apply (categorize_meeting_phase_monotone 9 2 3 ltac:(lia)). reflexivity.
  - apply (categorize_meeting_phase_monotone 9 7 8 ltac:(lia)). reflexivity.
Defined.

(** X7: the first two meetings of an account are "Early", however many
    meetings the account has. *)
Theorem first_two_meetings_early :
  forall total sequence : Z,
    (sequence <= 2)%Z ->
    Engagement.categorize_meeting_phase total sequence = "Early".
Proof.
  intros total sequence Hseq.
  unfold Engagement.categorize_meeting_phase. cbv zeta.
  repeat match goal with
         | |- context [(?a <=? ?b)%Z] =>
             destruct (Z.leb_spec a b)
         end; try reflexivity;
    exfalso; Z.div_mod_to_equations; lia.
Qed.

Lemma first_two_meetings_early_witness :
  Engagement.categorize_meeting_phase 12 2 = "Early".
Proof. apply first_two_meetings_early. lia. Defined.

(** X8: the last meeting of an account (sequence number equal to the
    count) is "Early" for one or two meetings, "Late" for three, "Middle"
    for four and "Late" for five or more: an account with four meetings has
    no "Late" meeting and one with at most three no "Middle" meeting. *)
Theorem last_meeting_phase :
  forall total : Z,
    (1 <= total)%Z ->
    Engagement.categorize_meeting_phase total total
    = (if (total <=? 2)%Z then "Early"
       else if (total =? 4)%Z then "Middle"
       else "Late")
    /\ (forall sequence,
           (total <= 3)%Z ->
           Engagement.categorize_meeting_phase total sequence <> "Middle")
    /\ (forall sequence,
           total = 4%Z -> (sequence <= total)%Z ->
           Engagement.categorize_meeting_phase total sequence <> "Late").
Proof.
  intros total Hpos. unfold Engagement.categorize_meeting_phase. cbv zeta.
  split; [| split].
  - destruct (Z.eqb_spec total 4);
      repeat match goal with
             | |- context [(?a <=? ?b)%Z] =>
                 destruct (Z.leb_spec a b)
             end; try reflexivity;
      exfalso; Z.div_mod_to_equations; lia.
  - intros sequence H3.
    destruct (Z.leb_spec total 3); [| lia].
    destruct (sequence <=? 2)%Z; discriminate.
  - intros sequence -> Hseq. simpl.
    destruct (Z.leb_spec sequence 2); [discriminate |].
    destruct (Z.leb_spec sequence 4); [discriminate | lia].
Qed.

Lemma last_meeting_phase_witness :
  Engagement.categorize_meeting_phase 4 4 = "Middle"
  /\ Engagement.categorize_meeting_phase 3 3 <> "Middle"
  /\ Engagement.categorize_meeting_phase 4 3 <> "Late".
Proof.
  destruct (last_meeting_phase 4 ltac:(lia)) as [Hlast [_ Hfour]].
  destruct (last_meeting_phase 3 ltac:(lia)) as [_ [Hthree _]].
  split; [exact Hlast | split].
  - apply Hthree. lia.
  - apply Hfour; [reflexivity | lia].
Defined.

(** ** C-level penetration *)

Lemma unique_In (seen values : list string) (x : string) :
  In x (Engagement.unique seen values) <-> In x values /\ ~ In x seen.
Proof.
  revert seen. induction values as [| v rest IH]; intro seen; simpl.
  - tauto.
  - destruct (existsb (String.eqb v) seen) eqn:E.
    + apply existsb_exists in E. destruct E as [y [Hy Heq]].
      apply String.eqb_eq in Heq. subst y.
      rewrite IH. split.
      * tauto.
      * intros [[<- | Hin] Hns]; [contradiction | tauto].
    + assert (Hv : ~ In v seen).
      { intro Hin. assert (Ht : existsb (String.eqb v) seen = true).
        { apply existsb_exists. exists v. split; [exact Hin |].
          apply String.eqb_refl. }
        congruence. }
      simpl. rewrite IH. simpl. split.
      * intros [<- | [Hin Hns]]; [tauto |]. split; [tauto |].
        intro Hs. apply Hns. right; exact Hs.
      * intros [[<- | Hin] Hns]; [left; reflexivity |].
        destruct (string_dec v x) as [-> | Hne]; [left; reflexivity |].
        right. split; [exact Hin |]. intros [E' | Hs]; [congruence | tauto].
Qed.

Lemma unique_NoDup (seen values : list string) :
  NoDup (Engagement.unique seen values).
Proof.
  revert seen. induction values as [| v rest IH]; intro seen; simpl.
  - constructor.
  - destruct (existsb (String.eqb v) seen); [apply IH |].
    constructor; [| apply IH].
    rewrite unique_In. intros [_ Hns]. apply Hns. left; reflexivity.
Qed.

(** X9: the C-level penetration of a group of rows is a percentage: it
    lies between 0 and 100, and it is 0 for a group without rows. *)
Theorem c_level_penetration_range :
  forall group : list Engagement.meeting,
    (0 <= Engagement.c_level_penetration group <= 100)%Q
    /\ Engagement.c_level_penetration [] = 0%Q.
Proof.
  intro group. split; [| reflexivity].
  unfold Engagement.c_level_penetration.
  set (with_c := Engagement.unique []
                   (map Engagement.AccountId
                        (filter (fun r => String.eqb (Engagement.seniority_level r)
                                                     "C-Level") group))).
  set (all := Engagement.unique [] (map Engagement.AccountId group)).
  assert (Hle : (List.length with_c <= List.length all)%nat).
  { apply NoDup_incl_length; [apply unique_NoDup |].
    intros x Hx. apply unique_In in Hx. destruct Hx as [Hx _].
    apply unique_In. split; [| intros []].
    apply in_map_iff in Hx. destruct Hx as [r [E Hr]].
    apply filter_In in Hr. destruct Hr as [Hr _].
    apply in_map_iff. exists r. split; assumption. }
  destruct (Nat.ltb_spec 0 (List.length all)) as [Hpos | Hzero]; [| lra].
  assert (HposQ : (0 < inject_Z (Z.of_nat (List.length all)))%Q).
  { change 0%Q with (inject_Z 0). rewrite <- Zlt_Qlt. lia. }
  assert (Hnum : (0 <= inject_Z (Z.of_nat (List.length with_c))
                  <= inject_Z (Z.of_nat (List.length all)))%Q).
  { split.
    - change 0%Q with (inject_Z 0). rewrite <- Zle_Qle. lia.
    - rewrite <- Zle_Qle. lia. }
  assert (Hratio : (0 <= inject_Z (Z.of_nat (List.length with_c))
                         / inject_Z (Z.of_nat (List.length all)) <= 1)%Q).
  { split.
    - apply Qle_shift_div_l; [exact HposQ | lra].
    - apply Qle_shift_div_r; [exact HposQ | lra]. }
  lra.
Qed.

(** ** Reported scores *)

Open Scope Q_scope.

(** X10: the scores [calculate_match_score] reports stay well inside
    their nominal scales: the composite score lies between 20 and 97 (it
    never comes near 0 or 100), the demographic score between 27 and 98, the
    attribute score between 0 and 100, and the geographic score is 70 or
    80. *)
Theorem reported_score_ranges :
  forall (a : Matcher.artist) (b : Matcher.brand),
    let r := Matcher.calculate_match_score a b in
    20 <= Matcher.composite_score r <= 97
    /\ 27 <= Matcher.demographic_score r <= 98
    /\ 0 <= Matcher.attribute_score r <= 100
    /\ (Matcher.geographic_score r == 70 \/ Matcher.geographic_score r == 80).
Proof.
  intros a b r. subst r.
  destruct (calculate_match_score_fields a b)
    as [Hsum [Hage [Hgender [Hincome [Hethnicity [Hattr Hgeo]]]]]].
  cbv zeta in *.
  set (brand_demo := Matcher.brand_demo_of (Matcher.AudienceParsed b)) in *.
  pose proof (calculate_age_similarity_unit
                (Matcher.age (Matcher.audience_parsed a))
                (Py.get brand_demo "Age" "")) as Bage.
  pose proof (calculate_gender_similarity_bounds
                (Matcher.gender (Matcher.audience_parsed a))
                (Py.get brand_demo "Gender" "All Genders")) as Bgender.
  pose proof (calculate_income_similarity_unit
                (Matcher.income (Matcher.audience_parsed a))
                (Py.get brand_demo "Household Income" "")) as Bincome.
  pose proof (calculate_ethnicity_similarity_range
                (Matcher.ethnicity (Matcher.audience_parsed a))
                (Py.get brand_demo "Ethnicity" "")) as Bethnicity.
  pose proof (calculate_attribute_affinity_unit
                (Matcher.attributes (Matcher.audience_parsed a))
                (Matcher.Industries b)) as Battr.
  assert (Hdemo : Matcher.demographic_score (Matcher.calculate_match_score a b)
                  == 25 * (Matcher.age_similarity (Matcher.calculate_match_score a b)
                           + Matcher.gender_similarity (Matcher.calculate_match_score a b)
                           + Matcher.income_similarity (Matcher.calculate_match_score a b)
                           + Matcher.ethnicity_similarity (Matcher.calculate_match_score a b))).
  { unfold Matcher.calculate_match_score.
    destruct (Matcher.calculate_attribute_affinity _ _) as [sc n].
    cbn [Matcher.demographic_score Matcher.age_similarity
         Matcher.gender_similarity Matcher.income_similarity
         Matcher.ethnicity_similarity]. field. }
  rewrite Hdemo, Hage, Hgender, Hincome, Hethnicity, Hsum, Hattr, Hgeo.
  destruct (geo_score_of_values brand_demo) as [G | G]; rewrite G;
    (split; [lra | split; [lra | split; [lra |]]]).
  - right. reflexivity.
  - left. reflexivity.
Qed.

(** The scores against a brand without a field in its audience. *)
Lemma no_field_scores (a : Matcher.artist) (b : Matcher.brand) :
  Matcher.brand_demo_of (Matcher.AudienceParsed b) = [] ->
  let r := Matcher.calculate_match_score a b in
  Matcher.age_similarity r = 0.5
  /\ Matcher.gender_similarity r = 0.75
  /\ Matcher.ethnicity_similarity r = 0.7
  /\ Matcher.geographic_score r == 70
  /\ 47 <= Matcher.composite_score r <= 78.
Proof.
  intros Hempty r. subst r.
  destruct (calculate_match_score_fields a b)
    as [Hsum [Hage [Hgender [Hincome [Hethnicity [Hattr Hgeo]]]]]].
  cbv zeta in *. rewrite Hempty in *. cbn [Py.get] in *.
  pose proof (calculate_attribute_affinity_unit
                (Matcher.attributes (Matcher.audience_parsed a))
                (Matcher.Industries b)) as Battr.
  pose proof (calculate_income_similarity_missing
                (Matcher.income (Matcher.audience_parsed a)) ""
                (or_intror eq_refl)) as Bincome.
  assert (Eage : Matcher.calculate_age_similarity
                   (Matcher.age (Matcher.audience_parsed a)) "" = 0.5).
  { apply calculate_age_similarity_missing. right. reflexivity. }
  assert (Egender : Matcher.calculate_gender_similarity
                      (Matcher.gender (Matcher.audience_parsed a)) "All Genders"
                    = 0.75) by reflexivity.
  assert (Eeth : Matcher.calculate_ethnicity_similarity
                   (Matcher.ethnicity (Matcher.audience_parsed a)) "" = 0.7).
  { unfold Matcher.calculate_ethnicity_similarity.
    rewrite orb_true_r. reflexivity. }
  assert (Egeo : Matcher.geo_score_of [] = 0.7) by reflexivity.
  rewrite Eage, Egender, Eeth, Egeo in *.
  rewrite Hage, Hgender, Hethnicity, Hsum, Hgeo.
  repeat split; try reflexivity; lra.
Qed.

(** X11: against a brand whose parsed audience is an empty dict, an empty
    list or a value that is neither a dict nor a list, the age score is
    0.5, the gender score 0.75, the ethnicity score 0.7 and the geographic
    score 70, and the composite score lies between 47 and 78.  A list
    counts as its first dict, and a dict that names a region has the
    geographic score 80. *)
Theorem empty_audience_scores :
  forall (a : Matcher.artist) (industries : string),
    (forall audience,
        In audience [Matcher.AudDict []; Matcher.AudList []; Matcher.AudOther] ->
        let r := Matcher.calculate_match_score a
                   (Matcher.mkBrand industries audience) in
        Matcher.age_similarity r = 0.5
        /\ Matcher.gender_similarity r = 0.75
        /\ Matcher.ethnicity_similarity r = 0.7
        /\ Matcher.geographic_score r == 70
        /\ 47 <= Matcher.composite_score r <= 78)
    /\ (forall d others,
           Matcher.calculate_match_score a
             (Matcher.mkBrand industries (Matcher.AudList (d :: others)))
           = Matcher.calculate_match_score a
               (Matcher.mkBrand industries (Matcher.AudDict d)))
    /\ (forall d,
           Py.get d "Region" "" <> ""%string ->
           Matcher.geographic_score
             (Matcher.calculate_match_score a
                (Matcher.mkBrand industries (Matcher.AudDict d))) == 80).
Proof.
  intros a industries. split; [| split].
  - intros audience Hin. apply no_field_scores.
    cbn [In] in Hin.
    destruct Hin as [<- | [<- | [<- | []]]]; reflexivity.
  - intros d others. reflexivity.
  - intros d Hregion.
    destruct (calculate_match_score_fields a
                (Matcher.mkBrand industries (Matcher.AudDict d)))
      as [_ [_ [_ [_ [_ [_ Hgeo]]]]]].
    cbv zeta in Hgeo. rewrite Hgeo.
    cbn [Matcher.AudienceParsed Matcher.brand_demo_of].
    unfold Matcher.geo_score_of.
    destruct (Py.get d "Region" "") as [| c rest]; [congruence |].
    cbn [Py.truthy]. reflexivity.
Qed.

Lemma empty_audience_scores_witness :
  Matcher.gender_similarity
    (Matcher.calculate_match_score
       (Matcher.mkArtist "A" (Matcher.mkAudience [("Female"%string, 0.7)] [] [] [] []))
       (Matcher.mkBrand "Beverage" Matcher.AudOther))
  = 0.75
  /\ Matcher.geographic_score
       (Matcher.calculate_match_score
          (Matcher.mkArtist "A" (Matcher.mkAudience [("Female"%string, 0.7)] [] [] [] []))
          (Matcher.mkBrand "Beverage"
             (Matcher.AudDict [("Region", "Midwest")]%string)))
     == 80.
Proof.
  destruct (empty_audience_scores
              (Matcher.mkArtist "A"
                 (Matcher.mkAudience [("Female"%string, 0.7)] [] [] [] []))
              "Beverage") as [Hempty [_ Hregion]].
  split.
  - apply (Hempty Matcher.AudOther). cbn [In]. tauto.
  - apply Hregion. discriminate.
Defined.

(** ** Ethnicity values *)

(** X12: the ethnicity score is 0.7 (a table or a brand text is missing),
    0.5 (both are there and no ethnicity matches) or above 0.8 and at most 1
    (one matches): a brand without ethnicity text scores higher than a brand
    whose text matches nothing. *)
Theorem calculate_ethnicity_similarity_values :
  forall (artist_ethnicity : Py.dict Q) (brand_ethnicity : string),
    let r := Matcher.calculate_ethnicity_similarity
               artist_ethnicity brand_ethnicity in
    r = 0.7 \/ r = 0.5 \/ 0.8 < r <= 1.
Proof.
  intros artist_ethnicity brand_ethnicity r. subst r.
  unfold Matcher.calculate_ethnicity_similarity.
  split_test; [left; reflexivity |]. right. cbv zeta.
  repeat split_test;
    try (apply andb_true_iff in Htest0; destruct Htest0 as [_ Hpos];
         apply Py_gt_true in Hpos);
    try (apply andb_true_iff in Htest1; destruct Htest1 as [_ Hpos];
         apply Py_gt_true in Hpos);
    try (apply andb_true_iff in Htest2; destruct Htest2 as [_ Hpos];
         apply Py_gt_true in Hpos);
    try (apply andb_true_iff in Htest3; destruct Htest3 as [_ Hpos];
         apply Py_gt_true in Hpos);
    try (left; reflexivity);
    right; py_minmax; lra.
Qed.

(** ** Age groups and the table *)

Lemma existsb_incl {A : Type} (f : A -> bool) (l1 l2 : list A) :
  incl l1 l2 -> existsb f l1 = true -> existsb f l2 = true.
Proof.
  intros Hincl H. apply existsb_exists in H. destruct H as [x [Hin Hf]].
  apply existsb_exists. exists x. split; [apply Hincl; exact Hin | exact Hf].
Qed.

(** A label with an age of a range in it has an age of every wider
    range in it. *)
Lemma mentions_age_wider (narrow wide : Z * Z) (group : string) :
  incl (Py.range_incl (Z.to_nat (fst narrow)) (Z.to_nat (snd narrow)))
       (Py.range_incl (Z.to_nat (fst wide)) (Z.to_nat (snd wide))) ->
  Matcher.mentions_age narrow group = true ->
  Matcher.mentions_age wide group = true.
Proof. unfold Matcher.mentions_age. apply existsb_incl. Qed.

Lemma range_incl_sub (lo hi lo' hi' : nat) :
  (lo' <= lo)%nat -> (hi <= hi')%nat ->
  incl (Py.range_incl lo hi) (Py.range_incl lo' hi').
Proof.
  unfold Py.range_incl. intros Hlo Hhi x Hx.
  apply in_seq in Hx. apply in_seq. lia.
Qed.

(** X13: the loop never gives an artist's age group the ranges 30-39 and
    50-59 of [age_map]: a label with an age from 30 to 39 in it is given
    28-43 (or an earlier entry), one with an age from 50 to 59 is given 44-59
    (or an earlier entry).  The range of a group is one of the other six, or
    none. *)
Theorem bucket_range_values :
  forall group : string,
    In (Matcher.bucket_range group)
       [None; Some (16, 20)%Z; Some (21, 29)%Z; Some (28, 43)%Z;
        Some (40, 49)%Z; Some (44, 59)%Z; Some (60, 75)%Z].
Proof.
  intro group. unfold Matcher.bucket_range.
  destruct (Py.contains "Years Old" group); [| left; reflexivity].
  unfold Matcher.artist_age_range, Matcher.age_map.
  cbn [find snd].
  destruct (Matcher.mentions_age (16, 20)%Z group); [simpl; tauto |].
  destruct (Matcher.mentions_age (21, 29)%Z group); [simpl; tauto |].
  destruct (Matcher.mentions_age (28, 43)%Z group) eqn:E28; [simpl; tauto |].
  destruct (Matcher.mentions_age (30, 39)%Z group) eqn:E30.
  { apply (mentions_age_wider _ (28, 43)%Z) in E30; [congruence |].
    apply range_incl_sub; simpl; lia. }
  destruct (Matcher.mentions_age (40, 49)%Z group); [simpl; tauto |].
  destruct (Matcher.mentions_age (44, 59)%Z group) eqn:E44; [simpl; tauto |].
  destruct (Matcher.mentions_age (50, 59)%Z group) eqn:E50.
  { apply (mentions_age_wider _ (44, 59)%Z) in E50; [congruence |].
    apply range_incl_sub; simpl; lia. }
  destruct (Matcher.mentions_age (60, 75)%Z group); simpl; tauto.
Qed.

Lemma age_fold_skipped (br : Z * Z) (artist_age : Py.dict Q) (acc : Q * Q) :
  (forall group index,
      In (group, index) artist_age -> Matcher.bucket_range group = None) ->
  fold_left (Matcher.age_step br) artist_age acc = acc.
Proof.
  revert acc. induction artist_age as [| [group index] rest IH];
    intros acc Hall; cbn [fold_left]; [reflexivity |].
  rewrite (age_step_skipped br acc group index
             (Hall group index (or_introl eq_refl))).
  apply IH. intros g i Hin. apply (Hall g i). right; exact Hin.
Qed.

(** X14: age groups whose label lacks "Years Old", or has no age of the
    table in it, do not count; an artist with no other group gets the age
    score 0.5 against every brand. *)
Theorem unrecognised_age_groups :
  forall (artist_age : Py.dict Q) (brand_age : string),
    (forall group index,
        In (group, index) artist_age -> Matcher.bucket_range group = None) ->
    Matcher.calculate_age_similarity artist_age brand_age = 0.5.
Proof.
  intros artist_age brand_age Hall.
  unfold Matcher.calculate_age_similarity.
  destruct (Matcher.brand_age_range brand_age) as [br |]; [| reflexivity].
  rewrite (age_fold_skipped br artist_age (0, 0) Hall). reflexivity.
Qed.

Lemma unrecognised_age_groups_witness :
  Matcher.calculate_age_similarity
    [("21-29"%string, 2); ("Teens Years Old"%string, 1)] "21-29" = 0.5.
Proof.
  apply unrecognised_age_groups.
  intros group index [E | [E | []]]; inversion E; reflexivity.
Defined.

(** With one group that has a range the score is the overlap ratio of
    that range with the brand's, whatever the index. *)
Lemma calculate_age_similarity_single (group : string) (index : Q)
  (brand_age : string) (t br : Z * Z) :
  Matcher.bucket_range group = Some t ->
  Matcher.brand_age_range brand_age = Some br ->
  Matcher.calculate_age_similarity [(group, index)] brand_age
  == inject_Z (Matcher.overlap_of t br) / inject_Z (Matcher.max_overlap_of t br).
Proof.
  intros Ht Hbr.
  apply (calculate_age_similarity_constant _ [(group, index)] brand_age br Hbr).
  - exists group, index, t. split; [left; reflexivity | exact Ht].
  - intros g i t' [E | []] Ht'. inversion E; subst.
    rewrite Ht in Ht'. inversion Ht'; subst. reflexivity.
Qed.

(** X15: an artist whose one age group is a label of [age_map] followed
    by " Years Old" does not always score 1 against the brand text of the
    same label.  The score is 1 for 16-20, 21-29, 30-39, 50-59 and 60+.  The
    group "28-43 Years Old" is given the range 21-29, which overlaps the
    brand's 28-43 by 1 year of 8; "40-49 Years Old" is given 28-43, which
    overlaps 40-49 by 3 years of 9; "44-59 Years Old" is given 40-49, which
    overlaps 44-59 by 5 years of 9: for these three the score is below 0.6,
    whatever the index of the group. *)
Theorem age_label_against_itself :
  forall (label : string) (index : Q),
    let score :=
      Matcher.calculate_age_similarity
        [((label ++ " Years Old")%string, index)] label in
    let assigned := Matcher.bucket_range (label ++ " Years Old")%string in
    let asked := Matcher.brand_age_range label in
    (In label ["16-20"; "21-29"; "30-39"; "50-59"; "60+"]%string -> score == 1)
    /\ (label = "28-43"%string ->
        assigned = Some (21, 29)%Z /\ asked = Some (28, 43)%Z
        /\ Matcher.overlap_of (21, 29)%Z (28, 43)%Z = 1%Z
        /\ Matcher.max_overlap_of (21, 29)%Z (28, 43)%Z = 8%Z
        /\ score < 0.6)
    /\ (label = "40-49"%string ->
        assigned = Some (28, 43)%Z /\ asked = Some (40, 49)%Z
        /\ Matcher.overlap_of (28, 43)%Z (40, 49)%Z = 3%Z
        /\ Matcher.max_overlap_of (28, 43)%Z (40, 49)%Z = 9%Z
        /\ score < 0.6)
    /\ (label = "44-59"%string ->
        assigned = Some (40, 49)%Z /\ asked = Some (44, 59)%Z
        /\ Matcher.overlap_of (40, 49)%Z (44, 59)%Z = 5%Z
        /\ Matcher.max_overlap_of (40, 49)%Z (44, 59)%Z = 9%Z
        /\ score < 0.6).
Proof.
  intros label index score assigned asked. subst score assigned asked.
  split; [| split; [| split]].
  - simpl. intros H.
    repeat (destruct H as [<- | H];
            [erewrite calculate_age_similarity_single;
             [| vm_compute; reflexivity | vm_compute; reflexivity];
             vm_compute; reflexivity |]).
    contradiction.
  - intros ->. repeat (split; [vm_compute; reflexivity |]).
    erewrite calculate_age_similarity_single;
      [| vm_compute; reflexivity | vm_compute; reflexivity].
    vm_compute; reflexivity.
  - intros ->. repeat (split; [vm_compute; reflexivity |]).
    erewrite calculate_age_similarity_single;
      [| vm_compute; reflexivity | vm_compute; reflexivity].
    vm_compute; reflexivity.
  - intros ->. repeat (split; [vm_compute; reflexivity |]).
    erewrite calculate_age_similarity_single;
      [| vm_compute; reflexivity | vm_compute; reflexivity].
    vm_compute; reflexivity.
Qed.

Lemma age_label_against_itself_witness :
  Matcher.calculate_age_similarity [("60+ Years Old"%string, 7)] "60+" == 1
  /\ Matcher.calculate_age_similarity [("40-49 Years Old"%string, 7)] "40-49"
     < 0.6.
Proof.
  destruct (age_label_against_itself "60+" 7) as [Hone _].
  destruct (age_label_against_itself "40-49" 7) as [_ [_ [Hthird _]]].
  split.
  - apply Hone. simpl. tauto.
  - apply Hthird. reflexivity.
Defined.

(** ** Income brackets *)

(** The level of an artist with one known bracket is that bracket's
    level, whatever the index. *)
Lemma artist_income_level_single (bracket : string) (index level : Q) :
  Py.lookup Matcher.income_brackets bracket = Some level ->
  Matcher.artist_income_level [(bracket, index)] == level.
Proof.
  intro Hlk. unfold Matcher.artist_income_level.
  cbn [fold_left]. unfold Matcher.income_step. rewrite Hlk. cbn [fst snd].
  pose proof (weight_ge_1 index) as Hw.
  set (w := 1 + Py.max 0 index) in *.
  py_compare; [field; lra | lra].
Qed.

(** X16: the two ways in which a bracket is read agree on the nine
    labels of [income_brackets]: the brand text equal to a label is given
    the label's own level (no other label is found in it first), and so is
    the artist's bracket of that label.  An artist whose one bracket is the
    label therefore scores at least 0.99 against the brand text of the same
    label, and 1 when the index of the bracket is not positive. *)
Theorem income_label_against_itself :
  forall (label : string) (level index : Q),
    In (label, level) Matcher.income_brackets ->
    Matcher.brand_income_level label = level
    /\ Py.lookup Matcher.income_brackets label = Some level
    /\ 0.99 <= Matcher.calculate_income_similarity [(label, index)] label <= 1
    /\ (index <= 0 ->
        Matcher.calculate_income_similarity [(label, index)] label == 1).
Proof.
  intros label level index Hin.
  assert (Hboth : Matcher.brand_income_level label = level
                  /\ Py.lookup Matcher.income_brackets label = Some level).
  { unfold Matcher.income_brackets in Hin. simpl in Hin.
    repeat (destruct Hin as [E | Hin];
            [inversion E; subst; split; vm_compute; reflexivity |]).
    contradiction. }
  destruct Hboth as [Hbrand Hlk]. split; [exact Hbrand | split; [exact Hlk |]].
  assert (Hone : Matcher.calculate_income_similarity [(label, index)] label == 1).
  { rewrite calculate_income_similarity_eq, fifth.
    unfold Matcher.income_distance.
    rewrite (artist_income_level_single label index level Hlk), Hbrand.
    assert (Hz : level - level == 0) by ring.
    rewrite Hz. vm_compute. reflexivity. }
  split; [rewrite Hone; lra | intros _; exact Hone].
Qed.

Lemma income_label_against_itself_witness :
  Matcher.calculate_income_similarity
    [("$75K-$125k"%string, -3)] "$75K-$125k" == 1.
Proof.
  apply (income_label_against_itself "$75K-$125k" 4 (-3)).
  - simpl. tauto.
  - lra.
Defined.

(** ** Tiers of a column *)

(** X17: a higher score never gets a lower tier, whatever the mean and
    the deviation: with it a score stays out of "Fair", stays "Strong" or
    better, stays "Exceptional". *)
Theorem assign_tier_monotone :
  forall (m s a b : Q),
    a <= b ->
    (Matcher.assign_tier m s a <> "Fair"%string ->
     Matcher.assign_tier m s b <> "Fair"%string)
    /\ (In (Matcher.assign_tier m s a) ["Strong"; "Exceptional"]%string ->
        In (Matcher.assign_tier m s b) ["Strong"; "Exceptional"]%string)
    /\ (Matcher.assign_tier m s a = "Exceptional"%string ->
        Matcher.assign_tier m s b = "Exceptional"%string).
Proof.
  intros m s a b Hab. unfold Matcher.assign_tier.
  repeat py_compare; simpl;
    (split; [| split]); intro Ha;
    try solve [ lra | tauto | congruence | discriminate Ha
              | intro Hb; discriminate Hb
              | exfalso; apply Ha; reflexivity
              | destruct Ha as [Ha | [Ha | []]]; discriminate Ha ].
Qed.

Lemma assign_tier_monotone_witness :
  Matcher.assign_tier 50 10 80 = "Exceptional"%string.
Proof.
  apply (assign_tier_monotone 50 10 71 80); [lra | reflexivity].
Defined.

(** ** Consumer attributes: matches and score *)

Lemma affinity_entry_shape (brand_lower attr : string) (index : Q)
  (acc : list string * Q) (entry : string * list string) :
  let acc' := Matcher.affinity_entry brand_lower attr index acc entry in
  (0 <= snd acc /\ (fst acc <> [] -> 0 < snd acc) ->
   0 <= snd acc' /\ (fst acc' <> [] -> 0 < snd acc'))
  /\ (List.length (fst acc') <= S (List.length (fst acc)))%nat
  /\ (List.length (fst acc) <= List.length (fst acc'))%nat.
Proof.
  unfold Matcher.affinity_entry. destruct entry as [key industries].
  destruct (Py.contains key (Py.lower attr)); [| cbv zeta; split; [tauto | lia]].
  destruct (Py.any_in industries brand_lower); [| cbv zeta; split; [tauto | lia]].
  cbn [fst snd]. split; [| rewrite length_app; simpl; lia].
  intros [Hnn Hpos].
  assert (Hms : 0 < (if Py.gt index 0 then (1 + index) / 3 else 0.3)).
  { py_compare; [| lra]. apply Qlt_shift_div_l; lra. }
  split; [lra | intros _; lra].
Qed.

Lemma affinity_fold_entries (brand_lower attr : string) (index : Q)
  (entries : Py.dict (list string)) (acc : list string * Q) :
  let acc' := fold_left (Matcher.affinity_entry brand_lower attr index)
                        entries acc in
  (0 <= snd acc /\ (fst acc <> [] -> 0 < snd acc) ->
   0 <= snd acc' /\ (fst acc' <> [] -> 0 < snd acc'))
  /\ (List.length (fst acc') <= List.length (fst acc) + List.length entries)%nat
  /\ (List.length (fst acc) <= List.length (fst acc'))%nat.
Proof.
  revert acc. induction entries as [| e rest IH]; intro acc; cbn [fold_left].
  - cbv zeta. split; [tauto | simpl; lia].
  - destruct (affinity_entry_shape brand_lower attr index acc e)
      as [Hinv [Hup Hdown]].
    destruct (IH (Matcher.affinity_entry brand_lower attr index acc e))
      as [IHinv [IHup IHdown]].
    cbv zeta in *. split; [tauto | simpl; lia].
Qed.

(** What the loops keep: the total is not negative, and positive once a
    match is recorded. *)
Lemma affinity_attr_keeps (brand_lower : string) (acc : list string * Q)
  (item : string * Q) :
  0 <= snd acc /\ (fst acc <> [] -> 0 < snd acc) ->
  0 <= snd (Matcher.affinity_attr brand_lower acc item)
  /\ (fst (Matcher.affinity_attr brand_lower acc item) <> [] ->
      0 < snd (Matcher.affinity_attr brand_lower acc item)).
Proof.
  unfold Matcher.affinity_attr.
  apply (affinity_fold_entries brand_lower (fst item) (snd item)
           Matcher.industry_attribute_map acc).
Qed.

Lemma affinity_attr_count (brand_lower : string) (acc : list string * Q)
  (item : string * Q) :
  (List.length (fst (Matcher.affinity_attr brand_lower acc item))
   <= List.length (fst acc) + 21)%nat.
Proof.
  unfold Matcher.affinity_attr.
  apply (affinity_fold_entries brand_lower (fst item) (snd item)
           Matcher.industry_attribute_map acc).
Qed.

Lemma fold_left_cons {A B : Type} (f : A -> B -> A) (x : B) (l : list B)
  (a : A) :
  fold_left f (x :: l) a = fold_left f l (f a x).
Proof. reflexivity. Qed.

Lemma length_cons_S {A : Type} (x : A) (l : list A) :
  List.length (x :: l) = S (List.length l).
Proof. reflexivity. Qed.

Lemma affinity_fold_attrs_count (brand_lower : string) (attrs : Py.dict Q) :
  forall acc : list string * Q,
    (List.length (fst (fold_left (Matcher.affinity_attr brand_lower) attrs acc))
     <= List.length (fst acc) + 21 * List.length attrs)%nat.
Proof.
  induction attrs as [| item rest IH]; intro acc.
  - rewrite Nat.mul_0_r, Nat.add_0_r. apply le_n.
  - rewrite fold_left_cons, length_cons_S.
    specialize (IH (Matcher.affinity_attr brand_lower acc item)).
    pose proof (affinity_attr_count brand_lower acc item) as Hup.
    revert IH Hup.
    generalize (Matcher.affinity_attr brand_lower acc item) as G.
    intro G.
    generalize (fold_left (Matcher.affinity_attr brand_lower) rest G) as F.
    intros F IH Hup.
    apply (Nat.le_trans _ _ _ IH). rewrite Nat.mul_succ_r.
    rewrite (Nat.add_comm (21 * List.length rest) 21), Nat.add_assoc.
    apply Nat.add_le_mono_r. exact Hup.
Qed.

Lemma affinity_fold_attrs_keeps (brand_lower : string) (attrs : Py.dict Q)
  (acc : list string * Q) :
  0 <= snd acc /\ (fst acc <> [] -> 0 < snd acc) ->
  0 <= snd (fold_left (Matcher.affinity_attr brand_lower) attrs acc)
  /\ (fst (fold_left (Matcher.affinity_attr brand_lower) attrs acc) <> [] ->
      0 < snd (fold_left (Matcher.affinity_attr brand_lower) attrs acc)).
Proof.
  apply (fold_left_keeps (Matcher.affinity_attr brand_lower)
           (fun a => 0 <= snd a /\ (fst a <> [] -> 0 < snd a))).
  intros a b _. apply affinity_attr_keeps.
Qed.

(** X19: with a table of attributes and an industry text that are not
    empty, the affinity score is above 0 and at most 1; it is the base score
    0.2 when no attribute matches; and the number of matches is at most 21
    (the number of keywords of the map) per attribute.  With an empty table
    or an empty text the result is score 0 and no match. *)
Theorem attribute_affinity_shape :
  forall (artist_attrs : Py.dict Q) (brand_industries : string),
    let r := Matcher.calculate_attribute_affinity
               artist_attrs brand_industries in
    (artist_attrs <> [] -> brand_industries <> ""%string ->
     0 < fst r <= 1
     /\ (snd r = 0%nat -> fst r = 0.2)
     /\ (snd r <= 21 * List.length artist_attrs)%nat)
    /\ (artist_attrs = [] \/ brand_industries = ""%string -> r = (0, 0%nat)).
Proof.
  intros artist_attrs brand_industries r. subst r.
  unfold Matcher.calculate_attribute_affinity. split.
  - intros Hattrs Hbrand.
    destruct artist_attrs as [| item rest]; [congruence |].
    destruct brand_industries as [| c brand]; [congruence |].
    cbn [Py.is_empty Py.truthy negb orb].
    pose proof (affinity_fold_attrs_count (Py.lower (String c brand))
                  (item :: rest) ([], 0)) as Hcount.
    pose proof (affinity_fold_attrs_keeps (Py.lower (String c brand))
                  (item :: rest) ([], 0)) as Hinv.
    destruct (fold_left _ (item :: rest) ([], 0)) as [matches total].
    cbn [fst snd] in Hcount, Hinv.
    destruct Hinv as [Hnn Hpos]; [split; [lra | congruence] |].
    assert (Hlen : 0 < inject_Z (Z.of_nat (List.length (item :: rest)))).
    { change 0 with (inject_Z 0). rewrite <- Zlt_Qlt. simpl. lia. }
    set (n := inject_Z (Z.of_nat (List.length (item :: rest)))) in *.
    destruct matches as [| m ms]; cbn [fst snd].
    + split; [vm_compute; split; [reflexivity | discriminate] |].
      split; [reflexivity | apply Nat.le_0_l].
    + assert (Havg : 0 < total / n).
      { apply Qlt_shift_div_l; [exact Hlen |].
        specialize (Hpos ltac:(discriminate)). lra. }
      split; [py_minmax; lra |].
      split; [discriminate | exact Hcount].
  - intros [-> | ->]; [reflexivity |].
    destruct artist_attrs; reflexivity.
Qed.

Lemma attribute_affinity_shape_witness :
  0 < fst (Matcher.calculate_attribute_affinity
             [("Dog Owners"%string, -1); ("Gamers"%string, 3)] "Pet Supplies")
    <= 1.
Proof.
  destruct (attribute_affinity_shape
              [("Dog Owners"%string, -1); ("Gamers"%string, 3)] "Pet Supplies")
    as [Hshape _].
  apply Hshape; discriminate.
Defined.

(** Two runs of the loops that agree on the total and on the number of
    matches. *)
Lemma affinity_entry_lower (brand_lower attr : string) (index : Q)
  (acc acc' : list string * Q) (entry : string * list string) :
  snd acc = snd acc' /\ List.length (fst acc) = List.length (fst acc') ->
  snd (Matcher.affinity_entry brand_lower (Py.lower attr) index acc entry)
  = snd (Matcher.affinity_entry brand_lower attr index acc' entry)
  /\ List.length
       (fst (Matcher.affinity_entry brand_lower (Py.lower attr) index acc entry))
     = List.length
         (fst (Matcher.affinity_entry brand_lower attr index acc' entry)).
Proof.
  intros [Hs Hl]. unfold Matcher.affinity_entry. cbv zeta.
  destruct entry as [key industries]. rewrite lower_idem.
  destruct (Py.contains key (Py.lower attr)); [| split; assumption].
  destruct (Py.any_in industries brand_lower); [| split; assumption].
  cbn [fst snd]. rewrite Hs, !length_app, Hl. split; reflexivity.
Qed.

Lemma affinity_entries_lower (brand_lower attr : string) (index : Q)
  (entries : Py.dict (list string)) :
  forall acc acc' : list string * Q,
    snd acc = snd acc' /\ List.length (fst acc) = List.length (fst acc') ->
    snd (fold_left (Matcher.affinity_entry brand_lower (Py.lower attr) index)
                   entries acc)
    = snd (fold_left (Matcher.affinity_entry brand_lower attr index)
                     entries acc')
    /\ List.length
         (fst (fold_left (Matcher.affinity_entry brand_lower (Py.lower attr) index)
                         entries acc))
       = List.length
           (fst (fold_left (Matcher.affinity_entry brand_lower attr index)
                           entries acc')).
Proof.
  induction entries as [| e rest IH]; intros acc acc' H.
  - exact H.
  - rewrite !fold_left_cons. apply IH. apply affinity_entry_lower. exact H.
Qed.

Lemma affinity_attrs_lower (brand_lower : string) (attrs : Py.dict Q) :
  forall acc acc' : list string * Q,
    snd acc = snd acc' /\ List.length (fst acc) = List.length (fst acc') ->
    snd (fold_left (Matcher.affinity_attr brand_lower)
                   (map (fun kv => (Py.lower (fst kv), snd kv)) attrs) acc)
    = snd (fold_left (Matcher.affinity_attr brand_lower) attrs acc')
    /\ List.length
         (fst (fold_left (Matcher.affinity_attr brand_lower)
                         (map (fun kv => (Py.lower (fst kv), snd kv)) attrs) acc))
       = List.length
           (fst (fold_left (Matcher.affinity_attr brand_lower) attrs acc')).
Proof.
  induction attrs as [| item rest IH]; intros acc acc' H.
  - exact H.
  - rewrite map_cons, !fold_left_cons. apply IH.
    unfold Matcher.affinity_attr. cbn [fst snd].
    apply affinity_entries_lower. exact H.
Qed.

(** X20: the affinity does not see letter case, neither in the industry
    text nor in the names of the attributes: lower-casing the names and
    changing the case of the text gives the same score and the same number
    of matches. *)
Theorem attribute_affinity_ignores_case :
  forall (artist_attrs : Py.dict Q) (b1 b2 : string),
    Py.lower b1 = Py.lower b2 ->
    Matcher.calculate_attribute_affinity
      (map (fun kv => (Py.lower (fst kv), snd kv)) artist_attrs) b1
    = Matcher.calculate_attribute_affinity artist_attrs b2.
Proof.
  intros artist_attrs b1 b2 Hlow.
  unfold Matcher.calculate_attribute_affinity.
  assert (Ht : Py.truthy b1 = Py.truthy b2).
  { destruct b1, b2; try reflexivity; discriminate Hlow. }
  assert (He : Py.is_empty (map (fun kv => (Py.lower (fst kv), snd kv)) artist_attrs)
               = Py.is_empty artist_attrs).
  { destruct artist_attrs; reflexivity. }
  rewrite Ht, He, Hlow, length_map.
  destruct (Py.is_empty artist_attrs || negb (Py.truthy b2))%bool; [reflexivity |].
  destruct (affinity_attrs_lower (Py.lower b2) artist_attrs ([], 0) ([], 0))
    as [Hs Hl]; [split; reflexivity |].
  destruct (fold_left _ (map _ artist_attrs) ([], 0)) as [matches1 total1].
  destruct (fold_left _ artist_attrs ([], 0)) as [matches2 total2].
  cbn [fst snd] in Hs, Hl. subst total2. rewrite Hl.
  destruct matches1, matches2; try discriminate Hl; reflexivity.
Qed.

Lemma attribute_affinity_ignores_case_witness :
  Matcher.calculate_attribute_affinity [("moms"%string, 1)] "RETAIL"
  = Matcher.calculate_attribute_affinity [("Moms"%string, 1)] "Retail".
Proof.
  apply (attribute_affinity_ignores_case [("Moms"%string, 1)] "RETAIL" "Retail").
  reflexivity.
Defined.

(** ** The matching run *)

Lemma insert_by_score_perm (r : Run.match_row) (rows : list Run.match_row) :
  Permutation (r :: rows) (Run.insert_by_score r rows).
Proof.
  induction rows as [| x rest IH]; cbn [Run.insert_by_score].
  - apply Permutation_refl.
  - destruct (Py.gt _ _); [apply Permutation_refl |].
    apply (perm_trans (perm_swap x r rest)). apply perm_skip. exact IH.
Qed.

Lemma sample_sort_perm (rows : list Run.match_row) :
  Permutation rows (Run.sample_sort rows).
Proof.
  unfold Run.sample_sort. induction rows as [| r rest IH]; cbn [fold_right].
  - apply perm_nil.
  - apply (perm_trans (perm_skip r IH)). apply insert_by_score_perm.
Qed.

Lemma insert_by_score_sorted (r : Run.match_row) (rows : list Run.match_row) :
  StronglySorted Run.score_falls rows ->
  StronglySorted Run.score_falls (Run.insert_by_score r rows).
Proof.
  induction rows as [| x rest IH]; intro Hs; cbn [Run.insert_by_score].
  - constructor; constructor.
  - inversion Hs as [| ? ? Hrest Hall]; subst.
    destruct (Py.gt (Run.Composite_Match_Score r) (Run.Composite_Match_Score x))
      eqn:E.
    + apply Py_gt_true in E. constructor; [exact Hs |].
      constructor; [unfold Run.score_falls; lra |].
      apply (Forall_impl _ (P := Run.score_falls x)); [| exact Hall].
      unfold Run.score_falls. intros y Hy. lra.
    + apply Py_gt_false in E. constructor; [apply IH; exact Hrest |].
      apply (Permutation_Forall (insert_by_score_perm r rest)).
      constructor; [exact E | exact Hall].
Qed.

Lemma sample_sort_sorted (rows : list Run.match_row) :
  StronglySorted Run.score_falls (Run.sample_sort rows).
Proof.
  unfold Run.sample_sort. induction rows as [| r rest IH]; cbn [fold_right].
  - constructor.
  - apply insert_by_score_sorted. exact IH.
Qed.

(** The frames of the artists when there is a brand. *)
Lemma results_of_returns (sort_values : list Run.match_row -> list Run.match_row)
  (artists : list Matcher.artist) (brands : list Matcher.brand) :
  brands <> [] ->
  Run.results_of sort_values artists brands
  = Matcher.Returns
      (map (fun a => Run.with_ranks (sort_values (Run.artist_results a brands)))
           artists).
Proof.
  intro Hb. induction artists as [| a rest IH]; cbn [Run.results_of map].
  - reflexivity.
  - rewrite IH. unfold Run.artist_results_df.
    destruct brands; [congruence | reflexivity].
Qed.

(** The rows of a run on artists and brands that are there. *)
Lemma run_matching_returns
  (sort_values : list Run.match_row -> list Run.match_row)
  (series_std : list Q -> Q)
  (artists : list Matcher.artist) (brands : list Matcher.brand) :
  artists <> [] -> brands <> [] ->
  Run.run_matching sort_values series_std artists brands
  = Matcher.Returns
      (Run.with_tiers series_std
         (List.concat
            (map (fun a => Run.with_ranks
                             (sort_values (Run.artist_results a brands)))
                 artists))).
Proof.
  intros Ha Hb. unfold Run.run_matching.
  rewrite (results_of_returns sort_values artists brands Hb).
  destruct artists; [congruence | reflexivity].
Qed.

Lemma with_ranks_length (rows : list Run.match_row) :
  List.length (Run.with_ranks rows) = List.length rows.
Proof.
  unfold Run.with_ranks.
  rewrite length_map, length_combine, length_seq. apply Nat.min_id.
Qed.

Lemma concat_blocks_length {A B : Type} (f : A -> list B) (n : nat)
  (l : list A) :
  (forall a, List.length (f a) = n) ->
  List.length (List.concat (map f l)) = (List.length l * n)%nat.
Proof.
  intro Hf. induction l as [| a rest IH]; cbn [map List.concat List.length].
  - reflexivity.
  - rewrite length_app, Hf, IH. reflexivity.
Qed.

(** X21: [run_matching] raises when there is no artist (nothing to
    concatenate) or no brand (nothing to sort by); and whenever it returns,
    there are an artist and a brand and it returns one row for every pair of
    them, as many rows as artists times brands, whatever the sort does to
    rows of equal score. *)
Theorem run_matching_size :
  forall (sort_values : list Run.match_row -> list Run.match_row)
         (series_std : list Q -> Q)
         (artists : list Matcher.artist) (brands : list Matcher.brand),
    (forall rows, Permutation rows (sort_values rows)) ->
    (artists = [] \/ brands = [] ->
     Run.run_matching sort_values series_std artists brands = Matcher.Raises)
    /\ (forall rows,
           Run.run_matching sort_values series_std artists brands
           = Matcher.Returns rows ->
           artists <> [] /\ brands <> []
           /\ List.length rows
              = (List.length artists * List.length brands)%nat).
Proof.
  intros sort_values series_std artists brands Hperm.
  assert (Hraise : artists = [] \/ brands = [] ->
                   Run.run_matching sort_values series_std artists brands
                   = Matcher.Raises).
  { intros [-> | ->]; [reflexivity |]. destruct artists; reflexivity. }
  split; [exact Hraise |].
  intros rows Hrun.
  assert (Ha : artists <> []).
  { intros E. rewrite (Hraise (or_introl E)) in Hrun. discriminate Hrun. }
  assert (Hb : brands <> []).
  { intros E. rewrite (Hraise (or_intror E)) in Hrun. discriminate Hrun. }
  split; [exact Ha | split; [exact Hb |]].
  rewrite run_matching_returns in Hrun by assumption.
  assert (Hrows : Run.with_tiers series_std
                    (List.concat
                       (map (fun a => Run.with_ranks
                                        (sort_values (Run.artist_results a brands)))
                            artists)) = rows) by congruence.
  rewrite <- Hrows. unfold Run.with_tiers. rewrite length_map.
  apply concat_blocks_length. intro a.
  rewrite with_ranks_length, <- (Permutation_length (Hperm _)).
  unfold Run.artist_results. apply length_map.
Qed.

Lemma run_matching_size_witness :
  Run.run_matching Run.sample_sort (fun _ => 1)
    [Matcher.mkArtist "A" (Matcher.mkAudience [] [] [] [] [])] []
  = Matcher.Raises
  /\ List.length
       (Run.with_tiers (fun _ => 1)
          (List.concat
             (map (fun a => Run.with_ranks
                              (Run.sample_sort
                                 (Run.artist_results a
                                    [Matcher.mkBrand "Beverage" Matcher.AudOther;
                                     Matcher.mkBrand "Retail" (Matcher.AudDict [])])))
                  [Matcher.mkArtist "A" (Matcher.mkAudience [] [] [] [] [])])))
     = 2%nat.
Proof.
  split.
  - apply (proj1 (run_matching_size Run.sample_sort (fun _ => 1)
                    [Matcher.mkArtist "A" (Matcher.mkAudience [] [] [] [] [])] []
                    sample_sort_perm)).
    right. reflexivity.
  - assert (Ha : [Matcher.mkArtist "A" (Matcher.mkAudience [] [] [] [] [])] <> [])
      by discriminate.
    assert (Hb : [Matcher.mkBrand "Beverage" Matcher.AudOther;
                  Matcher.mkBrand "Retail" (Matcher.AudDict [])] <> [])
      by discriminate.
    apply (proj2 (run_matching_size Run.sample_sort (fun _ => 1)
                    [Matcher.mkArtist "A" (Matcher.mkAudience [] [] [] [] [])]
                    [Matcher.mkBrand "Beverage" Matcher.AudOther;
                     Matcher.mkBrand "Retail" (Matcher.AudDict [])]
                    sample_sort_perm) _
                 (run_matching_returns _ _ _ _ Ha Hb)).
Defined.

(** ** Rows, ranks and scores *)

(** Rows numbered from [k] on. *)
Lemma ranked_from_In (k : nat) (rows : list Run.match_row) (r : Run.ranked_row) :
  In r (map (fun p => Run.mkRanked (fst p) (snd p))
            (combine rows (seq k (List.length rows)))) ->
  In (Run.ranked_of r) rows
  /\ (k <= Run.Rank_Within_Artist r < k + List.length rows)%nat.
Proof.
  intro Hin. apply in_map_iff in Hin. destruct Hin as [[row n] [<- Hp]].
  cbn [fst snd Run.ranked_of Run.Rank_Within_Artist]. split.
  - apply (in_combine_l _ _ _ _ Hp).
  - apply in_combine_r in Hp. apply in_seq in Hp. exact Hp.
Qed.

Lemma ranked_from_order (rows : list Run.match_row) :
  StronglySorted Run.score_falls rows ->
  forall (k : nat) (r1 r2 : Run.ranked_row),
    In r1 (map (fun p => Run.mkRanked (fst p) (snd p))
               (combine rows (seq k (List.length rows)))) ->
    In r2 (map (fun p => Run.mkRanked (fst p) (snd p))
               (combine rows (seq k (List.length rows)))) ->
    (Run.Rank_Within_Artist r1 < Run.Rank_Within_Artist r2)%nat ->
    Run.score_falls (Run.ranked_of r1) (Run.ranked_of r2).
Proof.
  induction 1 as [| x rest Hsorted IH Hall]; intros k r1 r2 H1 H2 Hlt.
  - destruct H1.
  - cbn [List.length seq combine map fst snd] in H1, H2.
    destruct H1 as [<- | H1]; destruct H2 as [<- | H2].
    + cbn [Run.Rank_Within_Artist] in Hlt. lia.
    + apply ranked_from_In in H2. destruct H2 as [Hin _].
      cbn [Run.ranked_of].
      rewrite Forall_forall in Hall. apply Hall. exact Hin.
    + apply ranked_from_In in H1. destruct H1 as [_ Hr].
      cbn [Run.Rank_Within_Artist] in Hlt. lia.
    + apply (IH (S k) r1 r2 H1 H2 Hlt).
Qed.

(** Every row gets a number. *)
Lemma numbered_In {A : Type} (rows : list A) (k : nat) (row : A) :
  In row rows -> exists n, In (row, n) (combine rows (seq k (List.length rows))).
Proof.
  revert k. induction rows as [| x rest IH]; intros k Hin; [destruct Hin |].
  cbn [List.length seq combine]. destruct Hin as [-> | Hin].
  - exists k. left; reflexivity.
  - destruct (IH (S k) Hin) as [n Hn]. exists n. right; exact Hn.
Qed.

(** The rows of one artist's frame are the artist's pairs. *)
Lemma block_row (sort_values : list Run.match_row -> list Run.match_row)
  (a : Matcher.artist) (brands : list Matcher.brand) (r : Run.ranked_row) :
  (forall rows, Permutation rows (sort_values rows)) ->
  In r (Run.with_ranks (sort_values (Run.artist_results a brands))) ->
  (exists b, In b brands
             /\ Run.ranked_of r
                = Run.mkMatchRow a b (Matcher.calculate_match_score a b))
  /\ (1 <= Run.Rank_Within_Artist r <= List.length brands)%nat.
Proof.
  intros Hperm Hin. unfold Run.with_ranks in Hin.
  apply ranked_from_In in Hin. destruct Hin as [Hrow Hrank].
  rewrite <- (Permutation_length (Hperm _)) in Hrank.
  apply (Permutation_in _ (Permutation_sym (Hperm _))) in Hrow.
  unfold Run.artist_results in *. rewrite length_map in Hrank.
  apply in_map_iff in Hrow. destruct Hrow as [b [Hb Hinb]].
  split; [exists b; split; [exact Hinb | symmetry; exact Hb] | lia].
Qed.

(** The rows of a run, by the artist's frame they come from. *)
Lemma run_row (sort_values : list Run.match_row -> list Run.match_row)
  (series_std : list Q -> Q)
  (artists : list Matcher.artist) (brands : list Matcher.brand)
  (rows : list Run.result_row) (r : Run.result_row) :
  Run.run_matching sort_values series_std artists brands = Matcher.Returns rows ->
  In r rows ->
  brands <> []
  /\ exists (a : Matcher.artist) (m s : Q),
      In a artists
      /\ In (Run.result_of r)
            (Run.with_ranks (sort_values (Run.artist_results a brands)))
      /\ (forall r', In r' rows ->
                     Run.Match_Tier r'
                     = Matcher.assign_tier m s
                         (Run.Composite_Match_Score
                            (Run.ranked_of (Run.result_of r')))).
Proof.
  intros Hrun Hin.
  assert (Hane : artists <> []) by (intros ->; discriminate Hrun).
  assert (Hbne : brands <> []).
  { intros ->. destruct artists; [congruence | discriminate Hrun]. }
  split; [exact Hbne |].
  rewrite run_matching_returns in Hrun by assumption.
  assert (Hrows : Run.with_tiers series_std
                    (List.concat
                       (map (fun a => Run.with_ranks
                                        (sort_values (Run.artist_results a brands)))
                            artists)) = rows) by congruence.
  clear Hrun.
  unfold Run.with_tiers in *.
  set (col := map (fun r0 => Run.Composite_Match_Score (Run.ranked_of r0)) _)
    in *.
  rewrite <- Hrows in Hin. apply in_map_iff in Hin.
  destruct Hin as [rr [Hr Hrr]].
  apply in_concat in Hrr. destruct Hrr as [block [Hblock Hinb]].
  apply in_map_iff in Hblock. destruct Hblock as [a [<- Ha]].
  exists a, (Matcher.mean col), (series_std col).
  split; [exact Ha | split].
  - rewrite <- Hr. exact Hinb.
  - intros r' Hr'. rewrite <- Hrows in Hr'. apply in_map_iff in Hr'.
    destruct Hr' as [rr' [<- _]]. reflexivity.
Qed.

(** X22: every row of a run carries the scores [calculate_match_score]
    gives its artist and its brand, the artist and the brand are among those
    given, and the rank lies between 1 and the number of brands; and every
    pair of an artist and a brand has a row. *)
Theorem run_matching_rows :
  forall (sort_values : list Run.match_row -> list Run.match_row)
         (series_std : list Q -> Q)
         (artists : list Matcher.artist) (brands : list Matcher.brand)
         (rows : list Run.result_row),
    (forall l, Permutation l (sort_values l)) ->
    Run.run_matching sort_values series_std artists brands
    = Matcher.Returns rows ->
    (forall r, In r rows ->
               let row := Run.ranked_of (Run.result_of r) in
               In (Run.row_artist row) artists
               /\ In (Run.row_brand row) brands
               /\ Run.row_scores row
                  = Matcher.calculate_match_score
                      (Run.row_artist row) (Run.row_brand row)
               /\ (1 <= Run.Rank_Within_Artist (Run.result_of r)
                   <= List.length brands)%nat)
    /\ (forall a b, In a artists -> In b brands ->
                    exists r, In r rows
                              /\ Run.row_artist (Run.ranked_of (Run.result_of r)) = a
                              /\ Run.row_brand (Run.ranked_of (Run.result_of r)) = b).
Proof.
  intros sort_values series_std artists brands rows Hperm Hrun. split.
  - intros r Hin row. subst row.
    destruct (run_row _ _ _ _ _ r Hrun Hin) as [_ [a [m [s [Ha [Hblock _]]]]]].
    destruct (block_row sort_values a brands _ Hperm Hblock)
      as [[b [Hb Hrow]] Hrank].
    rewrite Hrow. cbn [Run.row_artist Run.row_brand Run.row_scores].
    repeat split; try assumption; lia.
  - intros a b Ha Hb.
    assert (Hane : artists <> []) by (intros ->; destruct Ha).
    assert (Hbne : brands <> []) by (intros ->; destruct Hb).
    rewrite run_matching_returns in Hrun by assumption.
    assert (Hrows : Run.with_tiers series_std
                      (List.concat
                         (map (fun a => Run.with_ranks
                                          (sort_values (Run.artist_results a brands)))
                              artists)) = rows) by congruence.
    clear Hrun. rewrite <- Hrows.
    set (row := Run.mkMatchRow a b (Matcher.calculate_match_score a b)).
    assert (Hsorted : In row (sort_values (Run.artist_results a brands))).
    { apply (Permutation_in _ (Hperm _)). unfold Run.artist_results.
      apply in_map_iff. exists b. split; [reflexivity | exact Hb]. }
    destruct (numbered_In _ 1%nat row Hsorted) as [n Hn].
    set (rr := Run.mkRanked row n).
    assert (Hrr : In rr (Run.with_ranks
                           (sort_values (Run.artist_results a brands)))).
    { unfold Run.with_ranks. apply in_map_iff. exists (row, n).
      split; [reflexivity | exact Hn]. }
    unfold Run.with_tiers. eexists. split.
    + apply in_map_iff. exists rr. split; [reflexivity |].
      apply in_concat. eexists. split; [| exact Hrr].
      apply in_map_iff. exists a. split; [reflexivity | exact Ha].
    + split; reflexivity.
Qed.

Lemma run_matching_rows_witness :
  exists r,
    In r (Run.with_tiers (fun _ => 1)
            (List.concat
               (map (fun a => Run.with_ranks
                                (Run.sample_sort
                                   (Run.artist_results a
                                      [Matcher.mkBrand "Beverage" Matcher.AudOther;
                                       Matcher.mkBrand "Retail" (Matcher.AudDict [])])))
                    [Matcher.mkArtist "A" (Matcher.mkAudience [] [] [] [] [])])))
    /\ Run.row_artist (Run.ranked_of (Run.result_of r))
       = Matcher.mkArtist "A" (Matcher.mkAudience [] [] [] [] [])
    /\ Run.row_brand (Run.ranked_of (Run.result_of r))
       = Matcher.mkBrand "Retail" (Matcher.AudDict []).
Proof.
  assert (Ha : [Matcher.mkArtist "A" (Matcher.mkAudience [] [] [] [] [])] <> [])
    by discriminate.
  assert (Hb : [Matcher.mkBrand "Beverage" Matcher.AudOther;
                Matcher.mkBrand "Retail" (Matcher.AudDict [])] <> [])
    by discriminate.
  apply (proj2 (run_matching_rows Run.sample_sort (fun _ => 1)
                  [Matcher.mkArtist "A" (Matcher.mkAudience [] [] [] [] [])]
                  [Matcher.mkBrand "Beverage" Matcher.AudOther;
                   Matcher.mkBrand "Retail" (Matcher.AudDict [])]
                  _ sample_sort_perm
                  (run_matching_returns _ _ _ _ Ha Hb))).
  - left; reflexivity.
  - right; left; reflexivity.
Defined.

Lemma NoDup_map_injective {A B : Type} (f : A -> B) (l : list A) (x y : A) :
  NoDup (map f l) -> In x l -> In y l -> f x = f y -> x = y.
Proof.
  induction l as [| a rest IH]; intros Hnd Hx Hy Hf; [destruct Hx |].
  cbn [map] in Hnd. inversion Hnd as [| ? ? Hnotin Hrest]; subst.
  destruct Hx as [-> | Hx]; destruct Hy as [-> | Hy].
  - reflexivity.
  - exfalso. apply Hnotin. rewrite Hf. apply in_map. exact Hy.
  - exfalso. apply Hnotin. rewrite <- Hf. apply in_map. exact Hx.
  - apply IH; assumption.
Qed.

(** A score at least as high has a tier at least as high, at both ends
    of the scale. *)
Lemma assign_tier_ends (m s a b : Q) :
  a <= b ->
  (Matcher.assign_tier m s a = "Exceptional"%string ->
   Matcher.assign_tier m s b = "Exceptional"%string)
  /\ (Matcher.assign_tier m s b = "Fair"%string ->
      Matcher.assign_tier m s a = "Fair"%string).
Proof.
  intro Hab. unfold Matcher.assign_tier.
  repeat py_compare; simpl; split; intro Ht;
    solve [ reflexivity | discriminate Ht | lra ].
Qed.

(** X23: when the artists have different names and the sort puts the
    higher score first, then among the rows of one artist's name a smaller
    rank goes with a composite score at least as high, and with a tier at
    least as high: the row is "Exceptional" if the other is, and the other is
    "Fair" if the row is. *)
Theorem rank_orders_scores :
  forall (sort_values : list Run.match_row -> list Run.match_row)
         (series_std : list Q -> Q)
         (artists : list Matcher.artist) (brands : list Matcher.brand)
         (rows : list Run.result_row),
    (forall l, Permutation l (sort_values l)) ->
    (forall l, StronglySorted Run.score_falls (sort_values l)) ->
    NoDup (map Matcher.name artists) ->
    Run.run_matching sort_values series_std artists brands
    = Matcher.Returns rows ->
    forall r1 r2,
      In r1 rows -> In r2 rows ->
      Run.Artist_Name (Run.ranked_of (Run.result_of r1))
      = Run.Artist_Name (Run.ranked_of (Run.result_of r2)) ->
      (Run.Rank_Within_Artist (Run.result_of r1)
       < Run.Rank_Within_Artist (Run.result_of r2))%nat ->
      Run.Composite_Match_Score (Run.ranked_of (Run.result_of r2))
      <= Run.Composite_Match_Score (Run.ranked_of (Run.result_of r1))
      /\ (Run.Match_Tier r2 = "Exceptional"%string ->
          Run.Match_Tier r1 = "Exceptional"%string)
      /\ (Run.Match_Tier r1 = "Fair"%string ->
          Run.Match_Tier r2 = "Fair"%string).
Proof.
  intros sort_values series_std artists brands rows Hperm Hsorted Hnames Hrun
         r1 r2 Hin1 Hin2 Hname Hrank.
  destruct (run_row _ _ _ _ _ r1 Hrun Hin1)
    as [_ [a1 [m [s [Ha1 [Hb1 Htier]]]]]].
  destruct (run_row _ _ _ _ _ r2 Hrun Hin2)
    as [_ [a2 [_ [_ [Ha2 [Hb2 _]]]]]].
  destruct (block_row sort_values a1 brands _ Hperm Hb1) as [[b1 [_ Hrow1]] _].
  destruct (block_row sort_values a2 brands _ Hperm Hb2) as [[b2 [_ Hrow2]] _].
  assert (Heq : a1 = a2).
  { apply (NoDup_map_injective Matcher.name artists); try assumption.
    unfold Run.Artist_Name in Hname. rewrite Hrow1, Hrow2 in Hname.
    exact Hname. }
  subst a2.
  assert (Hfalls : Run.score_falls (Run.ranked_of (Run.result_of r1))
                                   (Run.ranked_of (Run.result_of r2))).
  { apply (ranked_from_order _ (Hsorted (Run.artist_results a1 brands)) 1%nat);
      assumption. }
  unfold Run.score_falls in Hfalls. split; [exact Hfalls |].
  rewrite (Htier r1 Hin1), (Htier r2 Hin2).
  apply assign_tier_ends. exact Hfalls.
Qed.

Lemma rank_orders_scores_witness :
  let a := Matcher.mkArtist "A"
             (Matcher.mkAudience [] [] [("$125K or More"%string, 1)] [] []) in
  let brands := [Matcher.mkBrand "Beverage" Matcher.AudOther;
                 Matcher.mkBrand "Retail"
                   (Matcher.AudDict [("Household Income", "$150,000+")]%string)] in
  let rows := Run.with_tiers (fun _ => 1)
                (List.concat
                   (map (fun a => Run.with_ranks
                                    (Run.sample_sort (Run.artist_results a brands)))
                        [a])) in
  let d := Run.mkResultRow
             (Run.mkRanked
                (Run.mkMatchRow a (Matcher.mkBrand "" Matcher.AudOther)
                   (Matcher.calculate_match_score a
                      (Matcher.mkBrand "" Matcher.AudOther))) 0) "" in
  Run.Composite_Match_Score (Run.ranked_of (Run.result_of (nth 1 rows d)))
  <= Run.Composite_Match_Score (Run.ranked_of (Run.result_of (nth 0 rows d))).
Proof.
  intros a brands rows d.
  assert (Ha : [a] <> []) by discriminate.
  assert (Hb : brands <> []) by discriminate.
  assert (Hnames : NoDup (map Matcher.name [a])).
  { constructor; [intros [] | constructor]. }
  apply (rank_orders_scores Run.sample_sort (fun _ => 1) [a] brands rows
           sample_sort_perm sample_sort_sorted Hnames
           (run_matching_returns _ _ _ _ Ha Hb)
           (nth 0 rows d) (nth 1 rows d)).
  - vm_compute. left. reflexivity.
  - vm_compute. right. left. reflexivity.
  - vm_compute. reflexivity.
  - vm_compute. apply le_n.
Defined.

(** ** The top match of an artist *)

Lemma find_app_split {A : Type} (p : A -> bool) (l1 l2 : list A) :
  find p (l1 ++ l2)
  = match find p l1 with
    | Some x => Some x
    | None => find p l2
    end.
Proof.
  induction l1 as [| x rest IH]; cbn [app find]; [reflexivity |].
  destruct (p x); [reflexivity | exact IH].
Qed.

Lemma find_all_false {A : Type} (p : A -> bool) (l : list A) :
  (forall x, In x l -> p x = false) -> find p l = None.
Proof.
  induction l as [| x rest IH]; intro H; cbn [find]; [reflexivity |].
  rewrite (H x (or_introl eq_refl)). apply IH.
  intros y Hy. apply H. right; exact Hy.
Qed.

(** The first row of a sorted and ranked frame has rank 1 and the highest
    score of the frame. *)
Lemma with_ranks_head (rows : list Run.match_row) :
  rows <> [] ->
  StronglySorted Run.score_falls rows ->
  exists top rest,
    Run.with_ranks rows = Run.mkRanked top 1 :: rest
    /\ In top rows
    /\ (forall r, In r rows -> Run.score_falls top r).
Proof.
  intros Hne Hs. destruct rows as [| x others]; [congruence |].
  exists x. eexists. split; [reflexivity |]. split; [left; reflexivity |].
  inversion Hs as [| ? ? _ Hall]; subst.
  intros r [<- | Hr].
  - unfold Run.score_falls. apply Qle_refl.
  - rewrite Forall_forall in Hall. apply Hall. exact Hr.
Qed.

(** X24: when the artists have different names and the sort puts the
    higher score first, the top match that [generate_statistics] reads for
    an artist (the first row of the artist's name) is a row of that artist
    with rank 1, and no brand has a higher composite score with the
    artist. *)
Theorem top_match_is_best :
  forall (sort_values : list Run.match_row -> list Run.match_row)
         (series_std : list Q -> Q)
         (artists : list Matcher.artist) (brands : list Matcher.brand)
         (rows : list Run.result_row) (a : Matcher.artist),
    (forall l, Permutation l (sort_values l)) ->
    (forall l, StronglySorted Run.score_falls (sort_values l)) ->
    NoDup (map Matcher.name artists) ->
    In a artists ->
    Run.run_matching sort_values series_std artists brands
    = Matcher.Returns rows ->
    exists top,
      Run.top_match rows (Matcher.name a) = Some top
      /\ Run.row_artist (Run.ranked_of (Run.result_of top)) = a
      /\ Run.Rank_Within_Artist (Run.result_of top) = 1%nat
      /\ (forall b, In b brands ->
                    Matcher.composite_score (Matcher.calculate_match_score a b)
                    <= Run.Composite_Match_Score
                         (Run.ranked_of (Run.result_of top))).
Proof.
  intros sort_values series_std artists brands rows a Hperm Hsorted Hnames Ha
         Hrun.
  assert (Hane : artists <> []) by (intros ->; destruct Ha).
  assert (Hbne : brands <> []).
  { intros ->. destruct artists; [congruence | discriminate Hrun]. }
  rewrite run_matching_returns in Hrun by assumption.
  assert (Hrows : Run.with_tiers series_std
                    (List.concat
                       (map (fun a => Run.with_ranks
                                        (sort_values (Run.artist_results a brands)))
                            artists)) = rows) by congruence.
  clear Hrun. subst rows. unfold Run.with_tiers, Run.top_match.
  set (m := Matcher.mean _). set (s := series_std _). clearbody m s.
  clear Hane. induction artists as [| a0 others IH]; [destruct Ha |].
  cbn [map List.concat]. rewrite map_app, find_app_split.
  cbn [map] in Hnames. inversion Hnames as [| ? ? Hnotin Hrest]; subst.
  destruct Ha as [-> | Ha].
  - clear IH.
    assert (Hblock : Run.artist_results a brands <> []).
    { unfold Run.artist_results. destruct brands; [congruence | discriminate]. }
    assert (Hsne : sort_values (Run.artist_results a brands) <> []).
    { intro E. apply Hblock. apply Permutation_nil.
      rewrite <- E. apply Permutation_sym. apply Hperm. }
    destruct (with_ranks_head _ Hsne (Hsorted _))
      as [top [rest [Hhead [Hintop Hbest]]]].
    rewrite Hhead. cbn [map find Run.result_of Run.ranked_of].
    assert (Htop : exists b0,
               top = Run.mkMatchRow a b0 (Matcher.calculate_match_score a b0)).
    { apply (Permutation_in _ (Permutation_sym (Hperm _))) in Hintop.
      unfold Run.artist_results in Hintop. apply in_map_iff in Hintop.
      destruct Hintop as [b0 [E _]]. exists b0. symmetry; exact E. }
    destruct Htop as [b0 Htop].
    assert (Hname : String.eqb (Run.Artist_Name top) (Matcher.name a) = true).
    { rewrite Htop. apply String.eqb_refl. }
    rewrite Hname. eexists. split; [reflexivity |].
    cbn [Run.result_of Run.ranked_of Run.Rank_Within_Artist].
    split; [rewrite Htop; reflexivity | split; [reflexivity |]].
    intros b Hb.
    assert (Hrow : In (Run.mkMatchRow a b (Matcher.calculate_match_score a b))
                      (sort_values (Run.artist_results a brands))).
    { apply (Permutation_in _ (Hperm _)). unfold Run.artist_results.
      apply in_map_iff. exists b. split; [reflexivity | exact Hb]. }
    apply Hbest in Hrow. exact Hrow.
  - assert (Hskip : find
                      (fun r => String.eqb
                                  (Run.Artist_Name (Run.ranked_of (Run.result_of r)))
                                  (Matcher.name a))
                      (map (fun r => Run.mkResultRow r
                                       (Matcher.assign_tier m s
                                          (Run.Composite_Match_Score
                                             (Run.ranked_of r))))
                           (Run.with_ranks
                              (sort_values (Run.artist_results a0 brands))))
                    = None).
    { apply find_all_false. intros x Hx. apply in_map_iff in Hx.
      destruct Hx as [rr [<- Hrr]]. cbn [Run.result_of].
      destruct (block_row sort_values a0 brands rr Hperm Hrr)
        as [[b0 [_ Hrow]] _].
      rewrite Hrow. unfold Run.Artist_Name. cbn [Run.row_artist].
      apply String.eqb_neq. intro E. apply Hnotin. rewrite E.
      apply in_map. exact Ha. }
    rewrite Hskip. apply IH; assumption.
Qed.

Lemma top_match_is_best_witness :
  let a := Matcher.mkArtist "A"
             (Matcher.mkAudience [] [] [("$125K or More"%string, 1)] [] []) in
  let brands := [Matcher.mkBrand "Beverage" Matcher.AudOther;
                 Matcher.mkBrand "Retail"
                   (Matcher.AudDict [("Household Income", "$150,000+")]%string)] in
  let rows := Run.with_tiers (fun _ => 1)
                (List.concat
                   (map (fun a => Run.with_ranks
                                    (Run.sample_sort (Run.artist_results a brands)))
                        [a])) in
  exists top,
    Run.top_match rows "A" = Some top
    /\ Run.Rank_Within_Artist (Run.result_of top) = 1%nat.
Proof.
  intros a brands rows.
  assert (Ha : [a] <> []) by discriminate.
  assert (Hb : brands <> []) by discriminate.
  assert (Hnames : NoDup (map Matcher.name [a])).
  { constructor; [intros [] | constructor]. }
  destruct (top_match_is_best Run.sample_sort (fun _ => 1) [a] brands rows a
              sample_sort_perm sample_sort_sorted Hnames
              (or_introl eq_refl)
              (run_matching_returns _ _ _ _ Ha Hb))
    as [top [Hfind [_ [Hrank _]]]].
  exists top. split; [exact Hfind | exact Hrank].
Defined.

(** ** The audience text of an artist *)

Example parse_sample_text :
  Parse.parse_artist_audience Parse.sample_float Parse.sample_text
  = Matcher.Returns
      (Matcher.mkAudience
         [("Female"%string, 65 / 100); ("Male"%string, 35 / 100)] [] [] []
         [("hard seltzer"%string, 2.5)]).
Proof. vm_compute. reflexivity. Qed.

Example strip_both_ends : Parse.strip "  65% " = "65%"%string.
Proof. reflexivity. Qed.

Example split_trailing_newline :
  Parse.split_char "010" (String "a" (String "010" EmptyString))
  = ["a"%string; ""%string].
Proof. reflexivity. Qed.

Lemma set_keys {V : Type} (d : Py.dict V) (k k' : string) (v : V) :
  In k' (map fst (Parse.set d k v)) -> k' = k \/ In k' (map fst d).
Proof.
  induction d as [| [k0 v0] rest IH]; cbn [Parse.set map fst In].
  - intros [<- | []]. left; reflexivity.
  - destruct (String.eqb k0 k); cbn [map fst In].
    + intros [<- | H]; [right; left; reflexivity | right; right; exact H].
    + intros [<- | H]; [right; left; reflexivity |].
      destruct (IH H) as [-> | H']; [left; reflexivity | right; right; exact H'].
Qed.

Lemma table_put (sec sec' : Parse.section) (k : string) (v : Q)
  (p : Matcher.artist_audience) :
  Parse.table sec' (Parse.put sec k v p)
  = if Parse.section_eqb sec sec' then Parse.set (Parse.table sec p) k v
    else Parse.table sec' p.
Proof. destruct sec, sec'; reflexivity. Qed.

Lemma section_eqb_eq (s1 s2 : Parse.section) :
  Parse.section_eqb s1 s2 = true <-> s1 = s2.
Proof. destruct s1, s2; simpl; split; intro H; congruence. Qed.

(** The key a line is stored under. *)
Lemma line_entry_key (py_float : string -> Matcher.outcome Q)
  (sec : Parse.section) (line : string) (following : list string)
  (key : string) (value : Q) :
  Parse.line_entry py_float sec line following
  = Matcher.Returns (Some (key, value)) ->
  key = match sec with
        | Parse.SecAttributes => Py.lower line
        | _ => line
        end.
Proof.
  unfold Parse.line_entry. destruct following as [| next rest]; [discriminate |].
  destruct sec;
    repeat match goal with
           | |- context [if ?c then _ else _] => destruct c
           | |- context [match py_float ?x with _ => _ end] =>
               destruct (py_float x)
           end; intro H; inversion H; reflexivity.
Qed.

(** A property of the current section and the tables that the headings
    and the stored lines keep holds of the tables returned. *)
Lemma parse_lines_keeps (py_float : string -> Matcher.outcome Q)
  (Inv : option Parse.section -> Matcher.artist_audience -> Prop)
  (lines : list string) :
  (forall raw sec cur p,
      In raw lines -> Parse.section_of (Parse.strip raw) = Some sec ->
      Inv cur p -> Inv (Some sec) p) ->
  (forall raw sec p v,
      In raw lines -> Parse.section_of (Parse.strip raw) = None ->
      Parse.strip raw <> ""%string ->
      Inv (Some sec) p ->
      Inv (Some sec)
          (Parse.put sec
             match sec with
             | Parse.SecAttributes => Py.lower (Parse.strip raw)
             | _ => Parse.strip raw
             end v p)) ->
  forall cur p result,
    Inv cur p ->
    Parse.parse_lines py_float lines cur p = Matcher.Returns result ->
    exists cur', Inv cur' result.
Proof.
  induction lines as [| raw following IH]; intros Hhead Hput cur p result Hinv;
    cbn [Parse.parse_lines].
  - intros [= <-]. exists cur. exact Hinv.
  - assert (IH' : forall cur p result,
               Inv cur p ->
               Parse.parse_lines py_float following cur p
               = Matcher.Returns result ->
               exists cur', Inv cur' result).
    { apply IH.
      - intros r s c q Hin. apply Hhead. right; exact Hin.
      - intros r s q v Hin. apply Hput. right; exact Hin. }
    clear IH. cbv zeta.
    destruct (Parse.section_of (Parse.strip raw)) as [sec |] eqn:Hsec.
    + apply IH'. apply (Hhead raw sec cur p (or_introl eq_refl) Hsec Hinv).
    + destruct cur as [sec |]; [| apply IH'; exact Hinv].
      destruct (Py.truthy (Parse.strip raw)) eqn:Htruthy;
        [| apply IH'; exact Hinv].
      destruct (Parse.line_entry py_float sec (Parse.strip raw) following)
        as [[[key value] |] |] eqn:Hentry; [| apply IH'; exact Hinv | discriminate].
      apply IH'. rewrite (line_entry_key _ _ _ _ _ _ Hentry).
      apply (Hput raw sec p value (or_introl eq_refl) Hsec); [| exact Hinv].
      intro E. rewrite E in Htruthy. discriminate Htruthy.
Qed.

(** X25: a section whose heading is on no line of the text has an empty
    table in the parse; and a text with no heading at all is parsed to five
    empty tables without a call of [float], so without an error. *)
Theorem parse_sections :
  forall (py_float : string -> Matcher.outcome Q) (audience_text : string),
    (forall sec parsed,
        Parse.parse_artist_audience py_float audience_text
        = Matcher.Returns parsed ->
        (forall raw, In raw (Parse.split_char "010" audience_text) ->
                     Parse.section_of (Parse.strip raw) <> Some sec) ->
        Parse.table sec parsed = [])
    /\ ((forall raw, In raw (Parse.split_char "010" audience_text) ->
                     Parse.section_of (Parse.strip raw) = None) ->
        Parse.parse_artist_audience py_float audience_text
        = Matcher.Returns (Matcher.mkAudience [] [] [] [] [])).
Proof.
  intros py_float audience_text. unfold Parse.parse_artist_audience. split.
  - intros sec parsed Hparse Hnone.
    destruct (parse_lines_keeps py_float
                (fun cur p => cur <> Some sec /\ Parse.table sec p = [])
                (Parse.split_char "010" audience_text)) with
        (cur := @None Parse.section)
        (p := Matcher.mkAudience [] [] [] [] []) (result := parsed)
      as [cur' [_ Htable]].
    + intros raw s cur p Hin Hs [_ Ht]. split; [| exact Ht].
      intros [= ->]. apply (Hnone raw Hin). exact Hs.
    + intros raw s p v Hin _ _ [Hcur Ht]. split; [exact Hcur |].
      rewrite table_put.
      destruct (Parse.section_eqb s sec) eqn:E; [| exact Ht].
      apply section_eqb_eq in E. congruence.
    + split; [discriminate | destruct sec; reflexivity].
    + exact Hparse.
    + exact Htable.
  - generalize (Matcher.mkAudience [] [] [] [] []) as p.
    induction (Parse.split_char "010" audience_text) as [| raw rest IH];
      intros p Hnone; cbn [Parse.parse_lines]; [reflexivity |].
    cbv zeta. rewrite (Hnone raw (or_introl eq_refl)).
    apply IH. intros r Hr. apply Hnone. right; exact Hr.
Qed.

Lemma parse_sections_witness :
  Parse.table Parse.SecAge
    (Matcher.mkAudience
       [("Female"%string, 65 / 100); ("Male"%string, 35 / 100)] [] [] []
       [("hard seltzer"%string, 2.5)]) = [].
Proof.
  apply (proj1 (parse_sections Parse.sample_float Parse.sample_text)
           Parse.SecAge).
  - vm_compute. reflexivity.
  - remember (Parse.split_char "010" Parse.sample_text) as lines eqn:E.
    vm_compute in E. subst lines. intros raw H.
    repeat (destruct H as [<- | H]; [vm_compute; discriminate |]).
    destruct H.
Defined.

(** A lower-cased text is no heading: every heading has a capital. *)
Lemma lower_not_heading (s heading : string) :
  In heading ["Gender"; "Ethnicity"; "Household Income"; "Age";
              "Consumer Attributes"]%string ->
  Py.lower s <> heading.
Proof.
  intros Hin E.
  assert (Hfix : Py.lower heading = heading).
  { rewrite <- E. apply lower_idem. }
  cbn [In] in Hin.
  repeat (destruct Hin as [<- | Hin]; [discriminate Hfix |]).
  destruct Hin.
Qed.

Lemma section_of_heading (line : string) (sec : Parse.section) :
  Parse.section_of line = Some sec ->
  In line ["Gender"; "Ethnicity"; "Household Income"; "Age";
           "Consumer Attributes"]%string.
Proof.
  unfold Parse.section_of.
  repeat match goal with
         | |- context [String.eqb ?a ?b] =>
             destruct (String.eqb_spec a b) as [-> | _];
             [intros _; cbn [In]; auto 10 |]
         end.
  discriminate.
Qed.

Lemma section_of_lower (s : string) : Parse.section_of (Py.lower s) = None.
Proof.
  destruct (Parse.section_of (Py.lower s)) as [sec |] eqn:E; [| reflexivity].
  exfalso. apply section_of_heading in E.
  apply (lower_not_heading s _ E). reflexivity.
Qed.

(** X26: every key of a parsed table is a line of the text without the
    white space at its ends (lower-cased in the attribute table); it is not
    empty and not a section heading, and the keys of the attribute table are
    in lower case. *)
Theorem parse_keys :
  forall (py_float : string -> Matcher.outcome Q) (audience_text : string)
         (parsed : Matcher.artist_audience) (sec : Parse.section) (key : string),
    Parse.parse_artist_audience py_float audience_text
    = Matcher.Returns parsed ->
    In key (map fst (Parse.table sec parsed)) ->
    key <> ""%string
    /\ Parse.section_of key = None
    /\ (exists raw,
           In raw (Parse.split_char "010" audience_text)
           /\ key = match sec with
                    | Parse.SecAttributes => Py.lower (Parse.strip raw)
                    | _ => Parse.strip raw
                    end)
    /\ (sec = Parse.SecAttributes -> Py.lower key = key).
Proof.
  intros py_float audience_text parsed sec key Hparse Hkey.
  unfold Parse.parse_artist_audience in Hparse.
  set (lines := Parse.split_char "010" audience_text) in *.
  set (good := fun (sc : Parse.section) (k : string) =>
                 k <> ""%string
                 /\ Parse.section_of k = None
                 /\ (exists raw,
                        In raw lines
                        /\ k = match sc with
                               | Parse.SecAttributes => Py.lower (Parse.strip raw)
                               | _ => Parse.strip raw
                               end)
                 /\ (sc = Parse.SecAttributes -> Py.lower k = k)).
  destruct (parse_lines_keeps py_float
              (fun _ p => forall sc k, In k (map fst (Parse.table sc p)) ->
                                       good sc k)
              lines) with
      (cur := @None Parse.section)
      (p := Matcher.mkAudience [] [] [] [] []) (result := parsed)
    as [_ Hall].
  - intros raw s cur p _ _ H. exact H.
  - intros raw s p v Hin Hsec Hne Hold sc k Hk.
    rewrite table_put in Hk.
    destruct (Parse.section_eqb s sc) eqn:E; [| apply Hold; exact Hk].
    apply section_eqb_eq in E. subst sc.
    apply set_keys in Hk. destruct Hk as [-> | Hk]; [| apply Hold; exact Hk].
    unfold good. destruct s.
    1-4: (split; [exact Hne | split; [exact Hsec | split;
           [exists raw; split; [exact Hin | reflexivity] | discriminate]]]).
    split; [intro E; apply (proj1 (lower_empty _)) in E; contradiction |].
    split; [apply section_of_lower |].
    split; [exists raw; split; [exact Hin | reflexivity] |].
    intros _. apply lower_idem.
  - intros sc k Hk. destruct sc; destruct Hk.
  - exact Hparse.
  - apply (Hall sec key Hkey).
Qed.

Lemma parse_keys_witness :
  Py.lower "hard seltzer" = "hard seltzer"%string.
Proof.
  apply (parse_keys Parse.sample_float Parse.sample_text
           (Matcher.mkAudience
              [("Female"%string, 65 / 100); ("Male"%string, 35 / 100)] [] [] []
              [("hard seltzer"%string, 2.5)])
           Parse.SecAttributes "hard seltzer").
  - vm_compute. reflexivity.
  - left. reflexivity.
  - reflexivity.
Defined.

(** X27: the parse fails only through [float], and [float] is asked
    only about lines with a percent sign or a leading sign: when [float]
    reads every line with a percent sign in it (stripped, the percent signs
    taken out) and every line that starts with "+" or "-" (stripped, the
    spaces taken out), the parse returns its tables.  Headings and labels
    need not be numbers. *)
Theorem parse_fails_through_float :
  forall (py_float : string -> Matcher.outcome Q) (audience_text : string),
    (forall raw,
        In raw (Parse.split_char "010" audience_text) ->
        (Py.contains "%" raw = true ->
         py_float (Parse.remove_char "%" (Parse.strip raw)) <> Matcher.Raises)
        /\ (Parse.signed raw = true ->
            py_float (Parse.remove_char " " (Parse.strip raw))
            <> Matcher.Raises)) ->
    exists parsed,
      Parse.parse_artist_audience py_float audience_text
      = Matcher.Returns parsed.
Proof.
  intros py_float audience_text. unfold Parse.parse_artist_audience.
  generalize (Matcher.mkAudience [] [] [] [] []) as p.
  generalize (@None Parse.section) as cur.
  induction (Parse.split_char "010" audience_text) as [| raw rest IH];
    intros cur p Hfloat; cbn [Parse.parse_lines].
  - exists p. reflexivity.
  - assert (IH' : forall cur p,
               exists parsed,
                 Parse.parse_lines py_float rest cur p = Matcher.Returns parsed).
    { intros c q. apply IH. intros r Hr. apply Hfloat. right; exact Hr. }
    clear IH. cbv zeta.
    destruct (Parse.section_of (Parse.strip raw)); [apply IH' |].
    destruct cur as [sec |]; [| apply IH'].
    destruct (Py.truthy (Parse.strip raw)); [| apply IH'].
    assert (Hentry : Parse.line_entry py_float sec (Parse.strip raw) rest
                     <> Matcher.Raises).
    { unfold Parse.line_entry. destruct rest as [| next others]; [discriminate |].
      destruct (Hfloat next (or_intror (or_introl eq_refl))) as [Hpct Hsp].
      destruct (Py.contains "%" next) eqn:Epct;
        destruct (Parse.signed next) eqn:Esig;
        destruct sec; try discriminate;
        try specialize (Hpct eq_refl); try specialize (Hsp eq_refl);
        match goal with
        | |- context [py_float ?x] =>
            destruct (py_float x) eqn:E; [discriminate | congruence]
        end. }
    destruct (Parse.line_entry py_float sec (Parse.strip raw) rest)
      as [[[key value] |] |]; [apply IH' | apply IH' | congruence].
Qed.

(** The sample text with the sample [float], which reads "65", "35" and
    "+2.5" and no heading or label. *)
Lemma parse_fails_through_float_witness :
  exists parsed,
    Parse.parse_artist_audience Parse.sample_float Parse.sample_text
    = Matcher.Returns parsed.
Proof.
  apply parse_fails_through_float.
  remember (Parse.split_char "010" Parse.sample_text) as lines eqn:E.
  vm_compute in E. subst lines. intros raw H.
  repeat (destruct H as [<- | H];
          [split; intro Hc; vm_compute in Hc; try discriminate Hc;
           vm_compute; discriminate |]).
  destruct H.
Defined.

Example parse_raises :
  Parse.parse_artist_audience Parse.sample_float
    (String.concat (String "010" EmptyString) ["Gender"; "Female"; "many%"])
  = Matcher.Raises.
Proof. vm_compute. reflexivity. Qed.

(** ** An account with an early meeting at VP level *)

Lemma has_early_executive_iff_witness :
  Engagement.has_early_executive
    [Engagement.mkMeeting "001" 1 "c1" (Some "Marketing Manager") 1;
     Engagement.mkMeeting "001" 1 "c2" (Some "VP Brand Partnerships") 2;
     Engagement.mkMeeting "002" 0 "c3" (Some "CEO") 4]
    "001" = true
  /\ Engagement.early_executive_access
       [Engagement.mkMeeting "001" 1 "c1" (Some "Marketing Manager") 1;
        Engagement.mkMeeting "001" 1 "c2" (Some "VP Brand Partnerships") 2;
        Engagement.mkMeeting "002" 0 "c3" (Some "CEO") 4]
       "002" = 0%Z.
Proof.
  split.
  - apply (proj1 (has_early_executive_iff _ _)).
    exists (Engagement.mkMeeting "001" 1 "c2" (Some "VP Brand Partnerships") 2).
    split; [right; left; reflexivity |].
    split; [reflexivity |].
    split; [cbn; lia |].
    vm_compute. left. reflexivity.
  - apply (proj1 (proj2 (has_early_executive_iff _ "002"))).
    intros r [<- | [<- | [<- | []]]] E; cbn in *; try discriminate E; lia.
Defined.
